(** * DeclutterAI: session state, analysis and chat handlers of [src/App.tsx]

    The React component [App] keeps seven [useState] cells and mutates them
    from four event handlers ([handleFileUpload]/[processImage],
    [handleSendMessage], [deleteImage] and the gallery tile's [onClick]).
    This development embeds those handlers as effect trees over the state
    record, runs them against an explicit environment (file reader, AI
    service, clock, random source) and proves the properties the
    specification states about them. *)

From Stdlib Require Import List NArith Bool String Ascii Lia.
Import ListNotations.

(* ------------------------------------------------------------------ *)
(** ** JavaScript strings *)

Module JS.

Local Open Scope N_scope.

(** A JavaScript string is a sequence of UTF-16 code units. *)
Definition jsstring := list N.

(** String literals of the source, written as Rocq strings. *)
Definition lit (s : string) : jsstring :=
  map N_of_ascii (list_ascii_of_string s).

Definition eqb (a b : jsstring) : bool :=
  if list_eq_dec N.eq_dec a b then true else false.

(** [LineTerminator]: LF, CR, LS, PS.  The regular expression atom [.]
    (without the [s] flag) matches every code unit but these. *)
Definition isLineTerminator (c : N) : bool :=
  (c =? 10) || (c =? 13) || (c =? 8232) || (c =? 8233).

(** [WhiteSpace] and [LineTerminator] together: the set matched by [\s]
    and stripped by [String.prototype.trim]. *)
Definition isSpace (c : N) : bool :=
  (c =? 9) || (c =? 10) || (c =? 11) || (c =? 12) || (c =? 13) || (c =? 32)
  || (c =? 160) || (c =? 5760) || ((8192 <=? c) && (c <=? 8202))
  || (c =? 8232) || (c =? 8233) || (c =? 8239) || (c =? 8287)
  || (c =? 12288) || (c =? 65279).

Fixpoint dropWhile (p : N -> bool) (s : jsstring) : jsstring :=
  match s with
  | [] => []
  | c :: s' => if p c then dropWhile p s' else s
  end.

Fixpoint takeWhile (p : N -> bool) (s : jsstring) : jsstring :=
  match s with
  | [] => []
  | c :: s' => if p c then c :: takeWhile p s' else []
  end.

Definition trimStart (s : jsstring) : jsstring := dropWhile isSpace s.
Definition trimEnd (s : jsstring) : jsstring := rev (dropWhile isSpace (rev s)).

(** [s.trim()] *)
Definition trim (s : jsstring) : jsstring := trimEnd (trimStart s).

(** Truthiness of a string value: the empty string is falsy. *)
Definition truthy (s : jsstring) : bool :=
  match s with [] => false | _ :: _ => true end.

(** [v || d] where [v] is a string or [undefined]. *)
Definition orElse (v : option jsstring) (d : jsstring) : jsstring :=
  match v with
  | Some s => if truthy s then s else d
  | None => d
  end.

(** [s.substring(n)] with a single argument. *)
Definition substring (n : nat) (s : jsstring) : jsstring := skipn n s.

(** [s.split(sep)] for a one-code-unit separator. *)
Fixpoint split (sep : N) (s : jsstring) : list jsstring :=
  match s with
  | [] => [[]]
  | c :: s' =>
      if c =? sep then [] :: split sep s'
      else match split sep s' with
           | [] => [[c]]
           | w :: ws => (c :: w) :: ws
           end
  end.

(** [Canonicalize] of the regular-expression semantics under the [i] flag
    (no [u] flag), as far as comparison against ASCII pattern characters
    goes: ASCII lower-case letters fold to upper case; a code unit of 128
    or more never canonicalizes to an ASCII one. *)
Definition canonicalize (c : N) : N :=
  if (97 <=? c) && (c <=? 122) then c - 32 else c.

Definition ci_eqb (a b : N) : bool := canonicalize a =? canonicalize b.

(** Case-insensitive match of a literal at the head of [s]; the result is
    what follows the matched characters. *)
Fixpoint stripLiteral (pat s : jsstring) : option jsstring :=
  match pat, s with
  | [], _ => Some s
  | _ :: _, [] => None
  | p :: pat', c :: s' => if ci_eqb p c then stripLiteral pat' s' else None
  end.

End JS.

Import JS.

(* ------------------------------------------------------------------ *)
(** ** Types of [App.tsx] *)

(** [interface AnalysisResult] *)
Record AnalysisResult : Type := mkAnalysisResult {
  id : jsstring;
  imageUrl : jsstring;
  timestamp : N;
  suggestions : jsstring;
  roomType : jsstring
}.

(** [role: 'user' | 'model'] *)
Inductive Role : Type := user | model.

(** [interface ChatMessage] *)
Record ChatMessage : Type := mkChatMessage {
  role : Role;
  text : jsstring
}.

Definition MODEL_NAME : jsstring := lit "gemini-3.1-pro-preview".

(** The seven [useState] cells of [App]. *)
Record State : Type := mkState {
  images : list AnalysisResult;
  selectedImage : option AnalysisResult;
  isAnalyzing : bool;
  chatMessages : list ChatMessage;
  inputMessage : jsstring;
  isChatting : bool;
  error : option jsstring
}.

(** Initial values passed to [useState]. *)
Definition initialState : State :=
  mkState [] None false [] [] false None.

(** The state setters.  Those the source calls with an updater function
    ([setImages], [setChatMessages]) take the updater. *)
Definition setImages (f : list AnalysisResult -> list AnalysisResult) (s : State) : State :=
  mkState (f (images s)) (selectedImage s) (isAnalyzing s) (chatMessages s)
          (inputMessage s) (isChatting s) (error s).

Definition setSelectedImage (v : option AnalysisResult) (s : State) : State :=
  mkState (images s) v (isAnalyzing s) (chatMessages s)
          (inputMessage s) (isChatting s) (error s).

Definition setIsAnalyzing (v : bool) (s : State) : State :=
  mkState (images s) (selectedImage s) v (chatMessages s)
          (inputMessage s) (isChatting s) (error s).

Definition setChatMessages (f : list ChatMessage -> list ChatMessage) (s : State) : State :=
  mkState (images s) (selectedImage s) (isAnalyzing s) (f (chatMessages s))
          (inputMessage s) (isChatting s) (error s).

Definition setInputMessage (v : jsstring) (s : State) : State :=
  mkState (images s) (selectedImage s) (isAnalyzing s) (chatMessages s)
          v (isChatting s) (error s).

Definition setIsChatting (v : bool) (s : State) : State :=
  mkState (images s) (selectedImage s) (isAnalyzing s) (chatMessages s)
          (inputMessage s) v (error s).

Definition setError (v : option jsstring) (s : State) : State :=
  mkState (images s) (selectedImage s) (isAnalyzing s) (chatMessages s)
          (inputMessage s) (isChatting s) v.

(* ------------------------------------------------------------------ *)
(** ** The AI service client, as the handlers use it *)

(** A browser [File]: the handlers read only [file.type]; the bytes are
    seen through [FileReader] and [URL.createObjectURL]. *)
Record File : Type := mkFile {
  fileName : jsstring;
  fileType : jsstring
}.

(** One element of [parts]. *)
Inductive Part : Type :=
| InlineData (mimeType : jsstring) (data : option jsstring)
| Text (t : jsstring).

(** A [Content] object; [processImage] passes one without a [role]. *)
Record Content : Type := mkContent {
  contentRole : option Role;
  parts : list Part
}.

(** [contents] is one [Content] object or an array of them. *)
Inductive Contents : Type :=
| OneContent (c : Content)
| ContentList (l : list Content).

(** The [config] field; the handlers only ever write [systemInstruction]. *)
Record Config : Type := mkConfig {
  systemInstruction : option jsstring
}.

(** Argument of [ai.models.generateContent]. *)
Record GenerateContentParameters : Type := mkGenerateContentParameters {
  gcModel : jsstring;
  gcContents : Contents;
  gcConfig : option Config
}.

(** Argument of [ai.chats.create]. *)
Record CreateChatParameters : Type := mkCreateChatParameters {
  ccModel : jsstring;
  ccConfig : option Config
}.

(** [GenerateContentResponse]: the handlers read only [response.text],
    which is a string or [undefined]. *)
Record GenerateContentResponse : Type := mkResponse {
  responseText : option jsstring
}.

(** How an awaited promise settles.  The handlers log the rejection reason
    and otherwise ignore it, so it is not represented. *)
Inductive Settled (A : Type) : Type :=
| Resolved (a : A)
| Rejected.
Arguments Resolved {A} a.
Arguments Rejected {A}.

(** Calls made on the [ai] client, in order.  [ai.chats.create] builds a
    chat session object on the client; [ai.models.generateContent] is the
    completion request. *)
Inductive SdkCall : Type :=
| CallChatsCreate (p : CreateChatParameters)
| CallGenerateContent (p : GenerateContentParameters).

(** What surrounds a handler while it runs. *)
Record Env : Type := mkEnv {
  (** how [fileToBase64(file)] settles: the data URL of the file *)
  readAsDataURL : File -> Settled jsstring;
  (** [URL.createObjectURL(file)] *)
  createObjectURL : File -> jsstring;
  (** how [ai.models.generateContent(p)] settles *)
  generateContent : GenerateContentParameters -> Settled GenerateContentResponse;
  (** [Math.random().toString(36)]: the base-36 rendering of the draw *)
  random36 : jsstring;
  (** [Date.now()] *)
  now : N
}.

(* ------------------------------------------------------------------ *)
(** ** Handlers as effect trees *)

(** The body of an event handler: state-setter calls, the synchronous
    browser and client calls, and the two awaited calls.  A [try] block is
    written out: each [Rejected] branch continues with the [catch] block,
    and every branch ends with the [finally] block. *)
Inductive Handler : Type :=
| Return
| SetState (upd : State -> State) (k : Handler)
| AwaitFileToBase64 (file : File) (k : Settled jsstring -> Handler)
| CreateObjectURL (file : File) (k : jsstring -> Handler)
| AwaitGenerateContent (p : GenerateContentParameters)
                       (k : Settled GenerateContentResponse -> Handler)
| ChatsCreate (p : CreateChatParameters) (k : Handler)
| MathRandom36 (k : jsstring -> Handler)
| DateNow (k : N -> Handler).

(** Runs a handler to completion: the state setters apply in order to the
    current state, the environment answers the calls, and the calls made
    on the [ai] client are logged (newest last). *)
Fixpoint run (env : Env) (h : Handler) (s : State) (log : list SdkCall)
  : State * list SdkCall :=
  match h with
  | Return => (s, log)
  | SetState upd k => run env k (upd s) log
  | AwaitFileToBase64 file k => run env (k (readAsDataURL env file)) s log
  | CreateObjectURL file k => run env (k (createObjectURL env file)) s log
  | AwaitGenerateContent p k =>
      run env (k (generateContent env p)) s (log ++ [CallGenerateContent p])
  | ChatsCreate p k => run env k s (log ++ [CallChatsCreate p])
  | MathRandom36 k => run env (k (random36 env)) s log
  | DateNow k => run env (k (now env)) s log
  end.

(** The state at the handler's first suspension point: the synchronous
    prefix has run, no awaited call has settled yet. *)
Fixpoint suspended (env : Env) (h : Handler) (s : State) : State :=
  match h with
  | Return => s
  | SetState upd k => suspended env k (upd s)
  | AwaitFileToBase64 _ _ => s
  | CreateObjectURL file k => suspended env (k (createObjectURL env file)) s
  | AwaitGenerateContent _ _ => s
  | ChatsCreate _ k => suspended env k s
  | MathRandom36 k => suspended env (k (random36 env)) s
  | DateNow k => suspended env (k (now env)) s
  end.

(* ------------------------------------------------------------------ *)
(** ** [processImage] *)

Definition notLineTerminator (c : N) : bool := negb (isLineTerminator c).

(** The regular expression of [processImage] is [Room Type:], then [\s]
    starred, then a capture group holding [.] starred, under the [i] flag.
    This is its literal part. *)
Definition roomTypeLiteral : jsstring := lit "Room Type:".

(** Capture group 1 of a match of that expression starting at the head of
    [s]: the literal, then the greedy run of [\s], then the greedy run of [.].
    Both stars can match the empty string, so the first greedy attempt
    succeeds and nothing is given back. *)
Definition matchHere (s : jsstring) : option jsstring :=
  match stripLiteral roomTypeLiteral s with
  | Some rest => Some (takeWhile notLineTerminator (dropWhile isSpace rest))
  | None => None
  end.

(** [resultText.match] on that expression: the pattern has no anchor and
    no [g] flag, so the match is the leftmost one, tried at every position
    from the start of the text.  The result is capture group 1, or [None]
    for [null]. *)
Fixpoint roomTypeMatch (s : jsstring) : option jsstring :=
  match matchHere s with
  | Some capture => Some capture
  | None =>
      match s with
      | [] => None
      | _ :: s' => roomTypeMatch s'
      end
  end.

(** [roomTypeMatch ? roomTypeMatch[1].trim() : "Unknown Room"] *)
Definition roomTypeOf (resultText : jsstring) : jsstring :=
  match roomTypeMatch resultText with
  | Some capture => trim capture
  | None => lit "Unknown Room"
  end.

Definition LF : jsstring := [10%N].

(** The fixed instruction sent with the image. *)
Definition analysisPrompt : jsstring :=
  lit "Analyze this room photo. Identify the room type and provide specific, actionable decluttering and organization suggestions. Format the response as follows:"
  ++ LF ++ lit "Room Type: [Type]" ++ LF ++ LF ++ lit "Suggestions:"
  ++ LF ++ lit "- [Suggestion 1]" ++ LF ++ lit "- [Suggestion 2]" ++ LF ++ lit "...".

Definition greeting (roomType : jsstring) : jsstring :=
  lit "I've analyzed your " ++ roomType
  ++ lit ". How can I help you further with organizing this space?".

Definition analysisErrorMessage : jsstring :=
  lit "Failed to analyze image. Please check your API key and connection.".

Definition noSuggestions : jsstring := lit "No suggestions generated.".

(** The [finally] block of [processImage]. *)
Definition processImage_finally : Handler :=
  SetState (setIsAnalyzing false) Return.

(** The [catch] block of [processImage], followed by [finally]. *)
Definition processImage_catch : Handler :=
  SetState (setError (Some analysisErrorMessage)) processImage_finally.

(** The argument of [ai.models.generateContent] in [processImage]:
    [data] is [base64Data.split(',')[1]]. *)
Definition analysisRequest (file : File) (base64Data : jsstring)
  : GenerateContentParameters :=
  {| gcModel := MODEL_NAME;
     gcContents := OneContent
       {| contentRole := None;
          parts := [ InlineData (fileType file)
                                (nth_error (split 44 base64Data) 1);
                     Text analysisPrompt ] |};
     gcConfig := None |}.

Definition processImage (file : File) : Handler :=
  SetState (setIsAnalyzing true) (
  SetState (setError None) (
  AwaitFileToBase64 file (fun settled =>
  match settled with
  | Rejected => processImage_catch
  | Resolved base64Data =>
    CreateObjectURL file (fun imageUrl =>
    AwaitGenerateContent (analysisRequest file base64Data) (fun settled =>
    match settled with
    | Rejected => processImage_catch
    | Resolved response =>
      let resultText := orElse (responseText response) noSuggestions in
      let roomType := roomTypeOf resultText in
      MathRandom36 (fun rnd =>
      DateNow (fun ts =>
      let newResult :=
        {| id := substring 7 rnd;
           imageUrl := imageUrl;
           timestamp := ts;
           suggestions := resultText;
           roomType := roomType |} in
      SetState (setImages (fun prev => newResult :: prev)) (
      SetState (setSelectedImage (Some newResult)) (
      SetState (setChatMessages (fun _ =>
                  [ {| role := model; text := greeting roomType |} ]))
      processImage_finally))))
    end))
  end))).

(** [handleFileUpload]: [e.target.files?.[0]], nothing happens without a file. *)
Definition handleFileUpload (files : list File) : Handler :=
  match files with
  | [] => Return
  | file :: _ => processImage file
  end.

(* ------------------------------------------------------------------ *)
(** ** [handleSendMessage] *)

Definition emptyReplyFallback : jsstring :=
  lit "I'm sorry, I couldn't process that.".

Definition chatErrorFallback : jsstring :=
  lit "Sorry, I encountered an error. Please try again.".

Definition genericInstruction : jsstring :=
  lit "You are an expert interior organizer. Help the user declutter and organize their home.".

(** The [systemInstruction] expression of [ai.chats.create]'s argument. *)
Definition framing (selectedImage : option AnalysisResult) : jsstring :=
  match selectedImage with
  | Some img =>
      lit "You are an expert interior organizer. You are currently helping the user with their "
      ++ roomType img
      ++ lit ". Use the previous analysis as context: "
      ++ suggestions img
  | None => genericInstruction
  end.

Definition handleSendMessage_finally : Handler :=
  SetState (setIsChatting false) Return.

(** The argument of [ai.chats.create] in [handleSendMessage]. *)
Definition chatSession (selectedImage : option AnalysisResult)
  : CreateChatParameters :=
  {| ccModel := MODEL_NAME;
     ccConfig := Some {| systemInstruction := Some (framing selectedImage) |} |}.

(** The argument of [ai.models.generateContent] in [handleSendMessage]:
    the mapped history, then the new user turn; no [config] field. *)
Definition chatRequest (chatMessages : list ChatMessage) (userMsg : jsstring)
  : GenerateContentParameters :=
  let history :=
    map (fun m => {| contentRole := Some (role m);
                     parts := [ Text (text m) ] |})
        chatMessages in
  {| gcModel := MODEL_NAME;
     gcContents := ContentList
       (history ++ [ {| contentRole := Some user;
                        parts := [ Text userMsg ] |} ]);
     gcConfig := None |}.

(** [handleSendMessage] is a closure of one render: [inputMessage],
    [isChatting], [chatMessages] and [selectedImage] are the values of the
    render it was created in, [snap]; the updater functions see the state
    current when they run. *)
Definition handleSendMessage (snap : State) : Handler :=
  if negb (truthy (trim (inputMessage snap))) || isChatting snap then Return
  else
    let userMsg := trim (inputMessage snap) in
    SetState (setInputMessage []) (
    SetState (setChatMessages (fun prev =>
                prev ++ [ {| role := user; text := userMsg |} ])) (
    SetState (setIsChatting true) (
    (* const chat = ...; [chat] is not referred to again *)
    ChatsCreate (chatSession (selectedImage snap)) (
    AwaitGenerateContent (chatRequest (chatMessages snap) userMsg)
      (fun settled =>
    match settled with
    | Resolved response =>
        SetState (setChatMessages (fun prev =>
          prev ++ [ {| role := model;
                       text := orElse (responseText response)
                                      emptyReplyFallback |} ]))
        handleSendMessage_finally
    | Rejected =>
        SetState (setChatMessages (fun prev =>
          prev ++ [ {| role := model; text := chatErrorFallback |} ]))
        handleSendMessage_finally
    end))))).

(* ------------------------------------------------------------------ *)
(** ** Gallery handlers *)

(** [selectedImage?.id === id] *)
Definition selectedHasId (sel : option AnalysisResult) (id0 : jsstring) : bool :=
  match sel with
  | Some img => JS.eqb (id img) id0
  | None => false
  end.

Definition deleteImage (snap : State) (id0 : jsstring) : Handler :=
  SetState (setImages (fun prev =>
              filter (fun img => negb (JS.eqb (id img) id0)) prev)) (
  if selectedHasId (selectedImage snap) id0 then
    SetState (setSelectedImage None) (
    SetState (setChatMessages (fun _ => [])) Return)
  else Return).

(** The gallery tile of [img]: [onClick={() => setSelectedImage(img)}]. *)
Definition tileOnClick (img : AnalysisResult) : Handler :=
  SetState (setSelectedImage (Some img)) Return.

(* ------------------------------------------------------------------ *)
(** ** Running one event against the session *)

(** An event fires on the handler of the latest render, so the closure's
    snapshot is the current state, and the handler runs to completion
    before the next event. *)
Definition analyze (env : Env) (file : File) (s : State) : State :=
  fst (run env (processImage file) s []).

Definition sendMessage (env : Env) (s : State) : State :=
  fst (run env (handleSendMessage s) s []).

(** The calls [handleSendMessage] makes on the [ai] client. *)
Definition sendMessageCalls (env : Env) (s : State) : list SdkCall :=
  snd (run env (handleSendMessage s) s []).

(** The completion requests among the client calls. *)
Fixpoint requestsOf (calls : list SdkCall) : list GenerateContentParameters :=
  match calls with
  | [] => []
  | CallGenerateContent p :: rest => p :: requestsOf rest
  | CallChatsCreate _ :: rest => requestsOf rest
  end.

Definition deleteRecord (env : Env) (id0 : jsstring) (s : State) : State :=
  fst (run env (deleteImage s id0) s []).

Definition selectRecord (env : Env) (img : AnalysisResult) (s : State) : State :=
  fst (run env (tileOnClick img) s []).

(* ------------------------------------------------------------------ *)
(** ** Vocabulary of the properties *)

(** [needle] occurs in [hay] as a substring. *)
Definition includes (hay needle : jsstring) : Prop :=
  exists pre post, hay = pre ++ needle ++ post.

(** Equality up to the case of ASCII letters. *)
Definition sameLetters (a b : jsstring) : Prop :=
  map canonicalize a = map canonicalize b.

(** How the awaited calls of [processImage] settle together: a rejected
    file read never reaches the service. *)
Definition analysisOutcome (env : Env) (file : File)
  : Settled GenerateContentResponse :=
  match readAsDataURL env file with
  | Rejected => Rejected
  | Resolved base64Data => generateContent env (analysisRequest file base64Data)
  end.

(** How the awaited call of [handleSendMessage] settles. *)
Definition chatOutcome (env : Env) (s : State)
  : Settled GenerateContentResponse :=
  generateContent env (chatRequest (chatMessages s) (trim (inputMessage s))).

(** The record [processImage] builds once the service has resolved. *)
Definition newRecord (env : Env) (file : File) (resp : GenerateContentResponse)
  : AnalysisResult :=
  let resultText := orElse (responseText resp) noSuggestions in
  {| id := substring 7 (random36 env);
     imageUrl := createObjectURL env file;
     timestamp := now env;
     suggestions := resultText;
     roomType := roomTypeOf resultText |}.

(** The text of the assistant turn [handleSendMessage] appends, by the way
    the service call settled. *)
Definition assistantText (o : Settled GenerateContentResponse) : jsstring :=
  match o with
  | Resolved response => orElse (responseText response) emptyReplyFallback
  | Rejected => chatErrorFallback
  end.

(** The guard of [handleSendMessage] lets the message through. *)
Definition accepted (s : State) : Prop :=
  truthy (trim (inputMessage s)) = true /\ isChatting s = false.

(** What [roomTypeOf] makes of the text [rest] that follows a matched
    literal: white space is skipped (line breaks too), the capture runs to
    the next line terminator, and the capture is trimmed. *)
Definition captured (rest : jsstring) : jsstring :=
  trim (takeWhile notLineTerminator (dropWhile isSpace rest)).

(** [hay.startsWith(needle)] *)
Fixpoint startsWith (needle hay : jsstring) : bool :=
  match needle, hay with
  | [], _ => true
  | _ :: _, [] => false
  | n :: needle', h :: hay' => N.eqb n h && startsWith needle' hay'
  end.

(** [hay.includes(needle)], the decision procedure for [includes]. *)
Fixpoint includesb (hay needle : jsstring) : bool :=
  startsWith needle hay ||
  match hay with
  | [] => false
  | _ :: hay' => includesb hay' needle
  end.

(** The text parts of a request, in order. *)
Definition partTexts (c : Content) : list jsstring :=
  flat_map (fun p => match p with Text t => [t] | InlineData _ _ => [] end)
           (parts c).

Definition requestTexts (p : GenerateContentParameters) : list jsstring :=
  match gcContents p with
  | OneContent c => partTexts c
  | ContentList l => flat_map partTexts l
  end.

(** A message of the given role and text. *)
Definition message (r : Role) (t : jsstring) : ChatMessage :=
  {| role := r; text := t |}.

(** Lines of a text: the stretches between line terminators. *)
Fixpoint linesOf (s : jsstring) : list jsstring :=
  match s with
  | [] => [[]]
  | c :: s' =>
      if isLineTerminator c then [] :: linesOf s'
      else match linesOf s' with
           | [] => [[c]]
           | l :: ls => (c :: l) :: ls
           end
  end.

(** The room-type rule in the specification's words: the first line that
    begins with "Room Type:" (in any letter case) gives what follows on
    that line; without such a line the sentinel is used. *)
Fixpoint roomTypeByLine_in (ls : list jsstring) : jsstring :=
  match ls with
  | [] => lit "Unknown Room"
  | l :: ls' =>
      match stripLiteral roomTypeLiteral l with
      | Some rest => rest
      | None => roomTypeByLine_in ls'
      end
  end.

Definition roomTypeByLine (resultText : jsstring) : jsstring :=
  roomTypeByLine_in (linesOf resultText).

(* ------------------------------------------------------------------ *)
(** ** Sample sessions *)

Module Sample.

Definition png : File := {| fileName := lit "room.png"; fileType := lit "image/png" |}.

Definition dataUrl : jsstring := lit "data:image/png;base64,iVBORw0KGgo=".

(** An environment whose service settles as [reply] for every request. *)
Definition envWith (reply : Settled GenerateContentResponse)
                   (rnd : jsstring) (clock : N) : Env :=
  {| readAsDataURL := fun _ => Resolved dataUrl;
     createObjectURL := fun _ => lit "blob:room" ++ rnd;
     generateContent := fun _ => reply;
     random36 := rnd;
     now := clock |}.

Definition reply (t : jsstring) : Settled GenerateContentResponse :=
  Resolved {| responseText := Some t |}.

(** An environment in which reading the file fails. *)
Definition envUnreadable : Env :=
  {| readAsDataURL := fun _ => Rejected;
     createObjectURL := fun _ => lit "blob:room";
     generateContent := fun _ => reply (lit "unused");
     random36 := lit "0.4fzyo82mvyr";
     now := 1700000000000%N |}.

Definition bedroomText : jsstring :=
  lit "Room Type: Bedroom" ++ LF ++ LF ++ lit "Suggestions:" ++ LF
  ++ lit "- Use under-bed storage".

Definition envBedroom : Env :=
  envWith (reply bedroomText) (lit "0.4fzyo82mvyr") 1700000000000%N.

Definition kitchenText : jsstring :=
  lit "Room Type: Kitchen" ++ LF ++ LF ++ lit "Suggestions:" ++ LF
  ++ lit "- Hang the pans".

Definition envKitchen : Env :=
  envWith (reply kitchenText) (lit "0.9x2k7q1c5ab") 1700000060000%N.

(** The service resolves without text. *)
Definition envSilent : Env :=
  envWith (Resolved {| responseText := None |}) (lit "0.4fzyo82mvyr")
          1700000000000%N.

(** The service call is rejected. *)
Definition envDown : Env :=
  envWith Rejected (lit "0.4fzyo82mvyr") 1700000000000%N.

(** A reply that names the room in the middle of a sentence. *)
Definition proseText : jsstring := lit "Detected room type: Kitchen".

Definition envProse : Env :=
  envWith (reply proseText) (lit "0.4fzyo82mvyr") 1700000000000%N.

(** Two draws, 0.5 and 0.25: their base-36 renderings are "0.i" and "0.9". *)
Definition envHalf : Env :=
  envWith (reply bedroomText) (lit "0.i") 1700000000000%N.

Definition envQuarter : Env :=
  envWith (reply kitchenText) (lit "0.9") 1700000060000%N.

(** The session after one analysis of a kitchen photo. *)
Definition kitchenSession : State := analyze envKitchen png initialState.

(** The same session with a question typed into the chat box. *)
Definition kitchenAsking : State :=
  setInputMessage (lit "Where should I put my pots?") kitchenSession.

(** A session with a bedroom and then a kitchen analysed: the kitchen is
    selected and greeted. *)
Definition twoRooms : State :=
  analyze envKitchen png (analyze envBedroom png initialState).

Definition bedroomRecord : AnalysisResult :=
  {| id := lit "82mvyr";
     imageUrl := lit "blob:room0.4fzyo82mvyr";
     timestamp := 1700000000000%N;
     suggestions := bedroomText;
     roomType := lit "Bedroom" |}.

Definition kitchenRecord : AnalysisResult :=
  {| id := lit "q1c5ab";
     imageUrl := lit "blob:room0.9x2k7q1c5ab";
     timestamp := 1700000060000%N;
     suggestions := kitchenText;
     roomType := lit "Kitchen" |}.

End Sample.

(* ------------------------------------------------------------------ *)
(** ** The session as a transition system *)

(** The chat box: [onChange={(e) => setInputMessage(e.target.value)}]. *)
Definition inputOnChange (value : jsstring) : Handler :=
  SetState (setInputMessage value) Return.

(** The events the JSX binds a handler to. *)
Inductive Event : Type :=
| FileChosen (files : list File)   (* [onChange] of the file input *)
| Typed (value : jsstring)         (* [onChange] of the chat box *)
| SendPressed                      (* the send button, or Enter in the chat box *)
| TileClicked (img : AnalysisResult)
| DeleteClicked (id0 : jsstring).

(** The handler of an event, as a closure of the render [snap].  The delete
    button calls [e.stopPropagation()], so its click does not also reach
    the tile's [onClick]. *)
Definition handlerOf (ev : Event) (snap : State) : Handler :=
  match ev with
  | FileChosen files => handleFileUpload files
  | Typed value => inputOnChange value
  | SendPressed => handleSendMessage snap
  | TileClicked img => tileOnClick img
  | DeleteClicked id0 => deleteImage snap id0
  end.

(** One event, handled to completion. *)
Definition step (env : Env) (ev : Event) (s : State) : State :=
  fst (run env (handlerOf ev s) s []).

(** Which events the rendered page offers: the file input is always there;
    there is one tile, with its delete button, per gallery record; the chat
    box and the send button are rendered when no analysis is running and a
    record is selected. *)
Definition offered (ev : Event) (s : State) : Prop :=
  match ev with
  | FileChosen _ => True
  | Typed _ | SendPressed => isAnalyzing s = false /\ selectedImage s <> None
  | TileClicked img => In img (images s)
  | DeleteClicked id0 => exists img, In img (images s) /\ id img = id0
  end.

(** The selected record, if any, is one of the gallery. *)
Definition selectionInGallery (s : State) : Prop :=
  match selectedImage s with
  | Some img => In img (images s)
  | None => True
  end.

(** No user turn is directly followed by another user turn. *)
Fixpoint noAdjacentUsers (l : list ChatMessage) : bool :=
  match l with
  | [] => true
  | m :: rest =>
      match role m, rest with
      | user, m' :: _ =>
          match role m' with
          | user => false
          | model => noAdjacentUsers rest
          end
      | _, _ => noAdjacentUsers rest
      end
  end.

(** The last message of the transcript is a user turn. *)
Definition endsOnUser (l : list ChatMessage) : bool :=
  match last (map role l) model with
  | user => true
  | model => false
  end.

(** The string is empty or its first code unit fails [p]. *)
Definition headFails (p : N -> bool) (l : jsstring) : Prop :=
  match l with
  | [] => True
  | c :: _ => p c = false
  end.

(** A string with no white space at either end. *)
Definition trimmed (t : jsstring) : Prop :=
  match t with
  | [] => True
  | c :: _ => isSpace c = false /\ isSpace (last t c) = false
  end.

(** What every gallery record satisfies by the way it is built. *)
Definition wellFormedRecord (r : AnalysisResult) : Prop :=
  suggestions r <> [] /\
  Forall (fun c => isLineTerminator c = false) (roomType r) /\
  trimmed (roomType r).

(** A handler stopped at an [await]. *)
Inductive Pending : Type :=
| PendingFile (file : File) (k : Settled jsstring -> Handler)
| PendingRequest (p : GenerateContentParameters)
                 (k : Settled GenerateContentResponse -> Handler).

(** Runs a handler up to its next [await]: the state reached, the client
    calls made so far (the awaited request has been sent), and what the
    handler waits for, if it has not finished. *)
Fixpoint advance (env : Env) (h : Handler) (s : State) (log : list SdkCall)
  : State * list SdkCall * option Pending :=
  match h with
  | Return => (s, log, None)
  | SetState upd k => advance env k (upd s) log
  | AwaitFileToBase64 file k => (s, log, Some (PendingFile file k))
  | CreateObjectURL file k => advance env (k (createObjectURL env file)) s log
  | AwaitGenerateContent p k =>
      (s, log ++ [CallGenerateContent p], Some (PendingRequest p k))
  | ChatsCreate p k => advance env k s (log ++ [CallChatsCreate p])
  | MathRandom36 k => advance env (k (random36 env)) s log
  | DateNow k => advance env (k (now env)) s log
  end.

(** The rest of a stopped handler once the awaited call has settled. *)
Definition settle (env : Env) (p : Pending) : Handler :=
  match p with
  | PendingFile file k => k (readAsDataURL env file)
  | PendingRequest p k => k (generateContent env p)
  end.

(** The state in which a stopped handler ends when the awaited call settles
    while the session is in the state [current] and nothing else happens
    before the handler finishes: the updater functions it still has to call
    see [current], not the state the handler started from. *)
Definition finish (env : Env) (p : Pending) (current : State) : State :=
  fst (run env (settle env p) current []).

(** A pending handler waits for a chat reply, not for an analysis: the
    chat request passes an array of turns as [contents], the analysis
    request a single [Content]. *)
Definition isChatPending (p : Pending) : bool :=
  match p with
  | PendingFile _ _ => false
  | PendingRequest req _ =>
      match gcContents req with
      | ContentList _ => true
      | OneContent _ => false
      end
  end.

Definition isAnalysisPending (p : Pending) : bool := negb (isChatPending p).

(** The page: the session state and the handlers stopped at an [await].
    Events are handled while requests are pending. *)
Record Page : Type := mkPage {
  session : State;
  inFlight : list Pending
}.

Definition initialPage : Page := mkPage initialState [].

(** The page once a handler has run up to its next [await], beside the
    handlers already waiting. *)
Definition landed (r : State * list SdkCall * option Pending)
                  (others : list Pending) : Page :=
  match r with
  | (s, _, Some p) => mkPage s (p :: others)
  | (s, _, None) => mkPage s others
  end.

(** An event arrives: the handler of the current render runs up to its
    first [await]. *)
Definition fire (env : Env) (ev : Event) (pg : Page) : Page :=
  landed (advance env (handlerOf ev (session pg)) (session pg) [])
         (inFlight pg).

(** An awaited call settles: its handler resumes on the current state and
    runs up to its next [await]. *)
Definition settled (env : Env) (p : Pending) (s : State)
                   (others : list Pending) : Page :=
  landed (advance env (settle env p) s []) others.

(** The pages a session can be in: events and settlements in any order,
    each with the environment of its moment. *)
Inductive reachable : Page -> Prop :=
| reachable_init : reachable initialPage
| reachable_event (env : Env) (ev : Event) (pg : Page) :
    reachable pg -> offered ev (session pg) -> reachable (fire env ev pg)
| reachable_settle (env : Env) (s : State) (before : list Pending)
                   (p : Pending) (rest : list Pending) :
    reachable (mkPage s (before ++ p :: rest)) ->
    reachable (settled env p s (before ++ rest)).

(** How the last stage of an analysis leaves the state it resumes on. *)
Definition endsAnalysis (s s' : State) : Prop :=
  (exists rec : AnalysisResult,
      wellFormedRecord rec /\
      s' = {| images := rec :: images s;
              selectedImage := Some rec;
              isAnalyzing := false;
              chatMessages := [ message model (greeting (roomType rec)) ];
              inputMessage := inputMessage s;
              isChatting := isChatting s;
              error := error s |}) \/
  s' = {| images := images s;
          selectedImage := selectedImage s;
          isAnalyzing := false;
          chatMessages := chatMessages s;
          inputMessage := inputMessage s;
          isChatting := isChatting s;
          error := Some analysisErrorMessage |}.

(** How the last stage of a chat turn leaves the state it resumes on. *)
Definition endsChat (s s' : State) : Prop :=
  exists a : jsstring,
    a <> [] /\
    s' = {| images := images s;
            selectedImage := selectedImage s;
            isAnalyzing := isAnalyzing s;
            chatMessages := chatMessages s ++ [ message model a ];
            inputMessage := inputMessage s;
            isChatting := false;
            error := error s |}.

(** A pending handler that finishes when its call settles. *)
Definition lastStage (p : Pending) : Prop :=
  forall (env : Env) (s : State),
  exists (s' : State) (calls : list SdkCall),
    advance env (settle env p) s [] = (s', calls, None) /\
    if isChatPending p then endsChat s s' else endsAnalysis s s'.

(** What the handlers of [App] leave pending: a last stage, or the file
    read of an analysis, which fails or goes on to the request. *)
Definition behaved (p : Pending) : Prop :=
  lastStage p \/
  (isChatPending p = false /\
   forall (env : Env) (s : State),
     (exists (s' : State) (calls : list SdkCall),
         advance env (settle env p) s [] = (s', calls, None) /\
         endsAnalysis s s') \/
     (exists (p' : Pending) (calls : list SdkCall),
         advance env (settle env p) s [] = (s, calls, Some p') /\
         isChatPending p' = false /\
         lastStage p')).

(** The pending handler that started last is the one to settle. *)
Definition settleNewest (env : Env) (pg : Page) : Page :=
  match inFlight pg with
  | [] => pg
  | p :: others => settled env p (session pg) others
  end.

(** A run of uploads, one after the other. *)
Definition analyzeAll (jobs : list (Env * File)) (s : State) : State :=
  fold_left (fun st job => analyze (fst job) (snd job) st) jobs s.


(** The roles and the texts of a list of [Content] objects. *)
Definition contentsOf (p : GenerateContentParameters) : list Content :=
  match gcContents p with
  | OneContent c => [c]
  | ContentList l => l
  end.

Module Sample2.

Import Sample.

(** The kitchen session with a chat box holding only blanks. *)
Definition kitchenBlank : State :=
  setInputMessage (lit "   ") kitchenSession.

(** The kitchen session after the pots question was answered. *)
Definition kitchenAnswered : State := sendMessage envKitchen kitchenAsking.

(** The page while the pots question is in flight and the user has typed
    again. *)
Definition kitchenWaiting : Page :=
  fire envKitchen (Typed (lit "And the pans?"))
       (fire envKitchen SendPressed (mkPage kitchenAsking [])).

(** The pots question is sent, a bedroom photo is uploaded while the reply
    is pending, the analysis settles first and the reply last. *)
Definition uploadDuringChat : Page :=
  settleNewest envKitchen
    (settleNewest envBedroom
       (settleNewest envBedroom
          (fire envBedroom (FileChosen [png])
                (fire envKitchen SendPressed (mkPage kitchenAsking []))))).

(** Two analyses whose draws, 0.5 and 0.25, give the same empty id. *)
Definition collided : State :=
  analyze envQuarter png (analyze envHalf png initialState).

(** Three uploads: the bedroom, a failure, the kitchen. *)
Definition threeUploads : list (Env * File) :=
  [ (envBedroom, png); (envDown, png); (envKitchen, png) ].

End Sample2.

(* ------------------------------------------------------------------ *)
(** ** [processImage]: what one analysis does to the session *)

Section Analysis.

Variable env : Env.
Variable file : File.
Variable s : State.

(** The whole effect of a resolved analysis. *)
Lemma analyze_resolved (resp : GenerateContentResponse) :
  analysisOutcome env file = Resolved resp ->
  analyze env file s =
    {| images := newRecord env file resp :: images s;
       selectedImage := Some (newRecord env file resp);
       isAnalyzing := false;
       chatMessages :=
         [ message model (greeting (roomType (newRecord env file resp))) ];
       inputMessage := inputMessage s;
       isChatting := isChatting s;
       error := None |}.
Proof.
  unfold analysisOutcome, analyze, processImage; cbn [run].
  destruct (readAsDataURL env file) as [base64Data|]; [|discriminate].
  cbn [run]; intros ->; reflexivity.
Qed.

(** The whole effect of a rejected analysis, whichever call rejected. *)
Lemma analyze_rejected :
  analysisOutcome env file = Rejected ->
  analyze env file s =
    {| images := images s;
       selectedImage := selectedImage s;
       isAnalyzing := false;
       chatMessages := chatMessages s;
       inputMessage := inputMessage s;
       isChatting := isChatting s;
       error := Some analysisErrorMessage |}.
Proof.
  unfold analysisOutcome, analyze, processImage; cbn [run].
  destruct (readAsDataURL env file) as [base64Data|].
  - cbn [run]; intros ->; reflexivity.
  - reflexivity.
Qed.

(** An analysis is rejected exactly when the file read rejects or, the
    file read having resolved, the service call rejects. *)
Lemma analysisOutcome_rejected :
  analysisOutcome env file = Rejected <->
  readAsDataURL env file = Rejected \/
  exists base64Data,
    readAsDataURL env file = Resolved base64Data /\
    generateContent env (analysisRequest file base64Data) = Rejected.
Proof.
  unfold analysisOutcome.
  destruct (readAsDataURL env file) as [base64Data|]; split.
  - intros H; right; exists base64Data; split; [reflexivity|exact H].
  - intros [H|(d & [= <-] & H)]; [discriminate|exact H].
  - intros _; left; reflexivity.
  - reflexivity.
Qed.



(** C2.  A failed analysis, whether the file read or the service call
    rejected, leaves gallery, selection and transcript as they were and
    leaves a non-empty error message. *)
Theorem analyze_failure_keeps_session :
  analysisOutcome env file = Rejected ->
  images (analyze env file s) = images s /\
  selectedImage (analyze env file s) = selectedImage s /\
  chatMessages (analyze env file s) = chatMessages s /\
  exists msg, error (analyze env file s) = Some msg /\ msg <> [].
Proof.
  intros Hko. rewrite (analyze_rejected Hko); cbn.
  repeat split. exists analysisErrorMessage; split; [reflexivity|discriminate].
Qed.

(** C7.  [processImage] raises the busy flag before its first await, and
    whichever way the file read and the service call settle, the flag is
    down again when the handler has finished. *)
Theorem analyze_busy_flag_released :
  isAnalyzing (suspended env (processImage file) s) = true /\
  isAnalyzing (analyze env file s) = false.
Proof.
  split; [reflexivity|].
  destruct (analysisOutcome env file) as [resp|] eqn:Hout.
  - rewrite (analyze_resolved resp Hout); reflexivity.
  - rewrite (analyze_rejected Hout); reflexivity.
Qed.

(** C10.  When the service resolves with missing or empty text the analysis
    still succeeds: the new record carries the fixed text
    "No suggestions generated." and the room type "Unknown Room", it is
    selected, and no error is set. *)
Theorem analyze_empty_reply_still_succeeds (resp : GenerateContentResponse) :
  analysisOutcome env file = Resolved resp ->
  responseText resp = None \/ responseText resp = Some [] ->
  exists rec : AnalysisResult,
    images (analyze env file s) = rec :: images s /\
    selectedImage (analyze env file s) = Some rec /\
    suggestions rec = lit "No suggestions generated." /\
    roomType rec = lit "Unknown Room" /\
    error (analyze env file s) = None.
Proof.
  intros Hok Hempty. rewrite (analyze_resolved resp Hok); cbn.
  exists (newRecord env file resp); repeat split;
    unfold newRecord; destruct Hempty as [-> | ->]; reflexivity.
Qed.

End Analysis.

(* ------------------------------------------------------------------ *)
(** ** [handleSendMessage]: one chat turn *)

Section Chat.

Variable env : Env.
Variable s : State.

(** State and client calls of an accepted chat turn. *)
Lemma sendMessage_run :
  accepted s ->
  run env (handleSendMessage s) s [] =
    ({| images := images s;
        selectedImage := selectedImage s;
        isAnalyzing := isAnalyzing s;
        chatMessages :=
          (chatMessages s ++ [ message user (trim (inputMessage s)) ])
          ++ [ message model (assistantText (chatOutcome env s)) ];
        inputMessage := [];
        isChatting := false;
        error := error s |},
     [ CallChatsCreate (chatSession (selectedImage s));
       CallGenerateContent
         (chatRequest (chatMessages s) (trim (inputMessage s))) ]).
Proof.
  intros [Htext Hidle]. unfold handleSendMessage, chatOutcome.
  rewrite Htext, Hidle; cbn [negb orb run app].
  destruct (generateContent env _) as [response|]; reflexivity.
Qed.

(** The state while the request of an accepted chat turn is in flight. *)
Lemma sendMessage_suspended :
  accepted s ->
  suspended env (handleSendMessage s) s =
    {| images := images s;
       selectedImage := selectedImage s;
       isAnalyzing := isAnalyzing s;
       chatMessages := chatMessages s ++ [ message user (trim (inputMessage s)) ];
       inputMessage := [];
       isChatting := true;
       error := error s |}.
Proof.
  intros [Htext Hidle]. unfold handleSendMessage.
  rewrite Htext, Hidle; reflexivity.
Qed.

(** A turn the guard refuses changes nothing and calls nothing. *)
Lemma sendMessage_refused :
  ~ accepted s -> run env (handleSendMessage s) s [] = (s, []).
Proof.
  unfold accepted, handleSendMessage; intros Hno.
  destruct (truthy (trim (inputMessage s))), (isChatting s);
    try reflexivity.
  exfalso; apply Hno; split; reflexivity.
Qed.

(** C6.  An accepted chat turn lengthens the transcript by exactly two: the
    user's trimmed message, already present while the request is in flight,
    then one assistant message.  The assistant text is the service reply
    when there is one, the fixed text [emptyReplyFallback] when the service
    resolved without text, and the fixed text [chatErrorFallback] when the
    call was rejected. *)
Theorem sendMessage_appends_user_then_assistant :
  truthy (trim (inputMessage s)) = true ->
  isChatting s = false ->
  exists a : jsstring,
    chatMessages (suspended env (handleSendMessage s) s)
      = chatMessages s ++ [ message user (trim (inputMessage s)) ] /\
    chatMessages (sendMessage env s)
      = chatMessages s ++ [ message user (trim (inputMessage s));
                            message model a ] /\
    List.length (chatMessages (sendMessage env s))
      = List.length (chatMessages s) + 2 /\
    (forall t, t <> [] ->
       chatOutcome env s = Resolved {| responseText := Some t |} -> a = t) /\
    (chatOutcome env s = Resolved {| responseText := None |} \/
     chatOutcome env s = Resolved {| responseText := Some [] |} ->
       a = emptyReplyFallback) /\
    (chatOutcome env s = Rejected -> a = chatErrorFallback).
Proof.
  intros Htext Hidle.
  assert (Hacc : accepted s) by (split; assumption).
  exists (assistantText (chatOutcome env s)).
  unfold sendMessage.
  rewrite (sendMessage_run Hacc), (sendMessage_suspended Hacc); cbn [fst chatMessages].
  rewrite <- app_assoc; cbn [app].
  repeat split.
  - rewrite length_app; reflexivity.
  - intros t Ht ->; cbn. destruct t; [contradiction|reflexivity].
  - intros [-> | ->]; reflexivity.
  - intros ->; reflexivity.
Qed.

(** No completion request of [handleSendMessage] carries a [config], hence
    none carries a system instruction: the framing goes only into the
    argument of [ai.chats.create]. *)
Lemma sendMessage_requests_without_config :
  Forall (fun p => gcConfig p = None) (requestsOf (sendMessageCalls env s)).
Proof.
  unfold sendMessageCalls, handleSendMessage.
  destruct (negb (truthy (trim (inputMessage s))) || isChatting s).
  - constructor.
  - cbn [run app].
    destruct (generateContent env _) as [response|]; cbn; repeat constructor.
Qed.

End Chat.

(* ------------------------------------------------------------------ *)
(** ** Gallery handlers *)

Lemma eqb_eq (a b : jsstring) : JS.eqb a b = true <-> a = b.
Proof.
  unfold JS.eqb; destruct (list_eq_dec N.eq_dec a b); split;
    congruence || discriminate.
Qed.

Lemma selectedHasId_true (sel : option AnalysisResult) (id0 : jsstring) :
  selectedHasId sel id0 = true <-> exists img, sel = Some img /\ id img = id0.
Proof.
  destruct sel as [img|]; cbn; split.
  - intros H; exists img; split; [reflexivity|]. now apply eqb_eq.
  - intros (img' & [= <-] & H). now apply eqb_eq.
  - discriminate.
  - intros (img & [=] & _).
Qed.

Section Gallery.

Variable env : Env.
Variable s : State.

(** C8, as the code has it.  [deleteImage] works by id: it removes from the
    gallery the records with the given id and keeps the others in their
    order.  When the selected record has
    that id, the selection becomes none and the transcript becomes empty;
    otherwise selection and transcript are as before. *)
Theorem deleteRecord_removes_and_frames (id0 : jsstring) :
  (forall img, In img (images (deleteRecord env id0 s)) <->
               In img (images s) /\ id img <> id0) /\
  images (deleteRecord env id0 s)
    = filter (fun img => negb (JS.eqb (id img) id0)) (images s) /\
  ((exists sel, selectedImage s = Some sel /\ id sel = id0) ->
     selectedImage (deleteRecord env id0 s) = None /\
     chatMessages (deleteRecord env id0 s) = []) /\
  (~ (exists sel, selectedImage s = Some sel /\ id sel = id0) ->
     selectedImage (deleteRecord env id0 s) = selectedImage s /\
     chatMessages (deleteRecord env id0 s) = chatMessages s).
Proof.
  unfold deleteRecord, deleteImage; cbn [run].
  pose proof (selectedHasId_true (selectedImage s) id0) as Hsel.
  destruct (selectedHasId (selectedImage s) id0); cbn;
    (split; [|split; [reflexivity|split]]).
  - intros img; rewrite filter_In, negb_true_iff.
    rewrite <- not_true_iff_false, eqb_eq; reflexivity.
  - intros _; split; reflexivity.
  - intros Hno; exfalso; apply Hno, Hsel; reflexivity.
  - intros img; rewrite filter_In, negb_true_iff.
    rewrite <- not_true_iff_false, eqb_eq; reflexivity.
  - intros Hyes; apply Hsel in Hyes; discriminate.
  - intros _; split; reflexivity.
Qed.

(** Clicking a gallery tile selects its record and touches nothing else:
    the transcript in particular stays. *)
Lemma selectRecord_only_selects (img : AnalysisResult) :
  selectRecord env img s = setSelectedImage (Some img) s.
Proof. reflexivity. Qed.

End Gallery.

(* ------------------------------------------------------------------ *)
(** ** The room-type expression *)

Lemma sameLetters_cons (c p : N) (m pat : jsstring) :
  sameLetters (c :: m) (p :: pat) <->
  canonicalize c = canonicalize p /\ sameLetters m pat.
Proof.
  unfold sameLetters; cbn; split.
  - intros [= H1 H2]; auto.
  - intros [-> ->]; reflexivity.
Qed.

(** [stripLiteral] succeeds exactly on the texts that start with the
    literal up to letter case, and returns what follows it. *)
Lemma stripLiteral_Some (pat : jsstring) :
  forall s rest,
    stripLiteral pat s = Some rest <->
    exists m, s = m ++ rest /\ sameLetters m pat.
Proof.
  induction pat as [|p pat IH]; intros s rest; cbn.
  - split.
    + intros [= ->]; exists []; split; reflexivity.
    + intros (m & -> & Hm). destruct m; [reflexivity|discriminate].
  - destruct s as [|c s].
    + split; [discriminate|].
      intros (m & Hs & Hm). destruct m; discriminate.
    + unfold ci_eqb. destruct (N.eqb_spec (canonicalize p) (canonicalize c)) as [Heq|Hne].
      * rewrite IH; split.
        -- intros (m & -> & Hm); exists (c :: m); split; [reflexivity|].
           apply sameLetters_cons; auto.
        -- intros (m & Hs & Hm). destruct m as [|c' m]; [discriminate|].
           injection Hs as <- ->. apply sameLetters_cons in Hm.
           exists m; split; [reflexivity|tauto].
      * split; [discriminate|].
        intros (m & Hs & Hm). destruct m as [|c' m]; [discriminate|].
        injection Hs as <- ->. apply sameLetters_cons in Hm.
        destruct Hm as [Hc _]; congruence.
Qed.

(** Without any occurrence of the literal the match is [null]. *)
Lemma roomTypeMatch_none (s : jsstring) :
  (forall pre m rest, s = pre ++ m ++ rest -> ~ sameLetters m roomTypeLiteral) ->
  roomTypeMatch s = None.
Proof.
  induction s as [|c s IH]; intros Hno.
  - reflexivity.
  - cbn [roomTypeMatch]. unfold matchHere.
    destruct (stripLiteral roomTypeLiteral (c :: s)) as [rest|] eqn:Hstrip.
    + apply stripLiteral_Some in Hstrip as (m & Hs & Hm).
      exfalso; apply (Hno [] m rest); assumption.
    + apply IH; intros pre m rest -> Hm.
      apply (Hno (c :: pre) m rest); [reflexivity|assumption].
Qed.

(** The leftmost occurrence of the literal decides the capture. *)
Lemma roomTypeMatch_first (pre m rest : jsstring) :
  sameLetters m roomTypeLiteral ->
  (forall pre' m' rest',
      pre ++ m ++ rest = pre' ++ m' ++ rest' ->
      sameLetters m' roomTypeLiteral -> List.length pre <= List.length pre') ->
  roomTypeMatch (pre ++ m ++ rest)
    = Some (takeWhile notLineTerminator (dropWhile isSpace rest)).
Proof.
  intros Hm. induction pre as [|c pre IH]; intros Hmin.
  - assert (Hstrip : stripLiteral roomTypeLiteral ([] ++ m ++ rest) = Some rest)
      by (apply stripLiteral_Some; exists m; split; [reflexivity|assumption]).
    destruct m as [|c m]; [discriminate Hm|].
    cbn [app roomTypeMatch] in *. unfold matchHere; rewrite Hstrip; reflexivity.
  - cbn [app roomTypeMatch]. unfold matchHere.
    destruct (stripLiteral roomTypeLiteral (c :: pre ++ m ++ rest))
      as [rest0|] eqn:Hstrip.
    + apply stripLiteral_Some in Hstrip as (m0 & Hs & Hm0).
      specialize (Hmin [] m0 rest0 Hs Hm0); cbn in Hmin; lia.
    + apply IH; intros pre' m' rest' Hs Hm'.
      specialize (Hmin (c :: pre') m' rest').
      cbn in Hmin. rewrite Hs in Hmin.
      specialize (Hmin eq_refl Hm'); lia.
Qed.

Lemma startsWith_spec (needle : jsstring) :
  forall hay, startsWith needle hay = true <-> exists post, hay = needle ++ post.
Proof.
  induction needle as [|n needle IH]; intros hay; cbn.
  - split; eauto.
  - destruct hay as [|h hay].
    + split; [discriminate|]. intros (post & [=]).
    + rewrite andb_true_iff, N.eqb_eq, IH; split.
      * intros (-> & post & ->); eauto.
      * intros (post & [= -> ->]); eauto.
Qed.

Lemma includesb_spec (needle : jsstring) :
  forall hay, includesb hay needle = true <-> includes hay needle.
Proof.
  unfold includes.
  induction hay as [|h hay IH]; cbn [includesb];
    rewrite orb_true_iff, startsWith_spec.
  - split.
    + intros [(post & H)|]; [|discriminate]. exists [], post; exact H.
    + intros (pre & post & H). left.
      destruct pre; [exists post; exact H|discriminate].
  - rewrite IH; split.
    + intros [(post & H)|(pre & post & H)].
      * exists [], post; exact H.
      * exists (h :: pre), post; cbn; congruence.
    + intros (pre & post & H). destruct pre as [|c pre].
      * left; exists post; exact H.
      * right; exists pre, post. now injection H.
Qed.

(** C5, as the code has it.  When the service call of an analysis resolves,
    a record is created and selected and no error is set, whatever the text.
    Its room type comes from the leftmost place anywhere in the stored text
    (not only at the start of a line) where "Room Type:" stands in any
    letter case: white space after it is skipped, the rest of that line is
    captured and trimmed.  When the literal stands nowhere in the text the
    room type is "Unknown Room". *)
Theorem analyze_room_type_from_leftmost_occurrence
  (env : Env) (file : File) (s : State) (resp : GenerateContentResponse) :
  analysisOutcome env file = Resolved resp ->
  exists rec : AnalysisResult,
    images (analyze env file s) = rec :: images s /\
    selectedImage (analyze env file s) = Some rec /\
    error (analyze env file s) = None /\
    suggestions rec = orElse (responseText resp) noSuggestions /\
    ((forall pre m rest,
         suggestions rec = pre ++ m ++ rest -> ~ sameLetters m roomTypeLiteral) ->
     roomType rec = lit "Unknown Room") /\
    (forall pre m rest,
        suggestions rec = pre ++ m ++ rest ->
        sameLetters m roomTypeLiteral ->
        (forall pre' m' rest',
            suggestions rec = pre' ++ m' ++ rest' ->
            sameLetters m' roomTypeLiteral ->
            List.length pre <= List.length pre') ->
        roomType rec = captured rest).
Proof.
  intros Hok. rewrite (analyze_resolved env file s resp Hok); cbn [images selectedImage error].
  exists (newRecord env file resp).
  repeat split; cbn [newRecord suggestions roomType]; unfold roomTypeOf.
  - intros Hno. now rewrite (roomTypeMatch_none _ Hno).
  - intros pre m rest Hs Hm Hmin.
    rewrite Hs in *. now rewrite (roomTypeMatch_first pre m rest Hm Hmin).
Qed.

(** C9, as the code has it.  The id of a new record is the base-36
    rendering of one random draw without its first seven characters,
    whatever the gallery holds; the records of two successive analyses have
    different ids exactly when those two suffixes differ. *)
Theorem analyze_id_is_random_suffix
  (envA envB : Env) (fileA fileB : File) (s : State)
  (respA respB : GenerateContentResponse) :
  analysisOutcome envA fileA = Resolved respA ->
  analysisOutcome envB fileB = Resolved respB ->
  exists r1 r2 : AnalysisResult,
    images (analyze envB fileB (analyze envA fileA s)) = r2 :: r1 :: images s /\
    id r1 = substring 7 (random36 envA) /\
    id r2 = substring 7 (random36 envB) /\
    (id r1 <> id r2 <->
     substring 7 (random36 envA) <> substring 7 (random36 envB)).
Proof.
  intros HA HB.
  rewrite (analyze_resolved envB fileB (analyze envA fileA s) respB HB).
  rewrite (analyze_resolved envA fileA s respA HA); cbn.
  exists (newRecord envA fileA respA), (newRecord envB fileB respB).
  repeat split; auto.
Qed.

(* ------------------------------------------------------------------ *)
(** ** The sample sessions, run *)

Module Runs.

Import Sample.

Lemma kitchenSession_selected :
  selectedImage kitchenAsking = Some kitchenRecord /\
  chatMessages kitchenAsking = [ message model (greeting (lit "Kitchen")) ].
Proof. split; reflexivity. Qed.

(** C3.  With the kitchen record selected, sending
    "Where should I put my pots?" makes two calls on the client.  The
    framing, which names the room and carries the stored suggestions, is
    built into the argument of [ai.chats.create]; the one completion
    request is [ai.models.generateContent] with the history and the new
    user turn, it has no [config] and so no system instruction, and none of
    its texts contains the stored suggestions. *)
Theorem kitchen_question_request_lacks_framing :
  accepted kitchenAsking /\
  selectedImage kitchenAsking = Some kitchenRecord /\
  sendMessageCalls envKitchen kitchenAsking =
    [ CallChatsCreate
        {| ccModel := MODEL_NAME;
           ccConfig := Some {| systemInstruction :=
                                 Some (framing (Some kitchenRecord)) |} |};
      CallGenerateContent
        {| gcModel := MODEL_NAME;
           gcContents := ContentList
             [ {| contentRole := Some model;
                  parts := [ Text (greeting (lit "Kitchen")) ] |};
               {| contentRole := Some user;
                  parts := [ Text (lit "Where should I put my pots?") ] |} ];
           gcConfig := None |} ] /\
  includes (framing (Some kitchenRecord)) (lit "Kitchen") /\
  includes (framing (Some kitchenRecord)) (suggestions kitchenRecord) /\
  Forall (fun p => gcConfig p = None /\
                   Forall (fun t => ~ includes t (suggestions kitchenRecord))
                          (requestTexts p))
         (requestsOf (sendMessageCalls envKitchen kitchenAsking)).
Proof.
  split; [split; reflexivity|].
  split; [reflexivity|].
  split; [reflexivity|].
  split; [apply includesb_spec; reflexivity|].
  split; [apply includesb_spec; reflexivity|].
  repeat constructor;
    rewrite <- includesb_spec; vm_compute; discriminate.
Qed.

Lemma twoRooms_gallery :
  images twoRooms = [ kitchenRecord; bedroomRecord ].
Proof. reflexivity. Qed.

(** C4.  In a session holding a bedroom and a kitchen record, the kitchen
    selected and greeted, a click on the bedroom tile selects the bedroom
    record and leaves the transcript as it was: the kitchen greeting is
    still there. *)
Theorem tile_click_keeps_transcript :
  In bedroomRecord (images twoRooms) /\
  selectedImage twoRooms = Some kitchenRecord /\
  chatMessages twoRooms = [ message model (greeting (lit "Kitchen")) ] /\
  selectedImage (selectRecord envKitchen bedroomRecord twoRooms)
    = Some bedroomRecord /\
  chatMessages (selectRecord envKitchen bedroomRecord twoRooms)
    = [ message model (greeting (lit "Kitchen")) ] /\
  chatMessages (selectRecord envKitchen bedroomRecord twoRooms) <> [].
Proof.
  split; [right; left; reflexivity|].
  repeat split; discriminate.
Qed.

(** C5, counterexample.  The reply "Detected room type: Kitchen" has no
    line that begins with "Room Type:", so the rule in the specification's
    words gives the sentinel; the analysis records "Kitchen". *)
Lemma room_type_found_inside_a_line :
  (forall l, In l (linesOf proseText) -> stripLiteral roomTypeLiteral l = None) /\
  roomTypeByLine proseText = lit "Unknown Room" /\
  exists rec : AnalysisResult,
    selectedImage (analyze envProse png initialState) = Some rec /\
    roomType rec = lit "Kitchen" /\
    roomType rec <> lit "Unknown Room".
Proof.
  split; [|split; [reflexivity|]].
  - intros l [<- | []]; reflexivity.
  - eexists; split; [reflexivity|split; [reflexivity|discriminate]].
Qed.

(** C9, counterexample.  The draws 0.5 and 0.25 render as "0.i" and "0.9";
    both are shorter than seven characters, so two analyses with these
    draws put two different records with the same (empty) id into the
    gallery. *)
Lemma distinct_draws_same_id :
  random36 envHalf <> random36 envQuarter /\
  exists r1 r2 : AnalysisResult,
    images (analyze envQuarter png (analyze envHalf png initialState))
      = [ r2; r1 ] /\
    r1 <> r2 /\
    id r1 = id r2.
Proof.
  split; [discriminate|].
  eexists; eexists; split; [reflexivity|split; [discriminate|reflexivity]].
Qed.

(** On such a gallery [deleteImage] cannot tell the two records apart. *)
Lemma delete_by_shared_id_removes_both :
  images (deleteRecord envHalf []
            (analyze envQuarter png (analyze envHalf png initialState))) = [].
Proof. reflexivity. Qed.

(** A file that cannot be read: the open kitchen session is kept, the
    error banner is set, no request goes out. *)
Lemma unreadable_file_example :
  analyze envUnreadable png kitchenSession
    = setError (Some analysisErrorMessage) kitchenSession /\
  snd (run envUnreadable (processImage png) kitchenSession []) = [].
Proof. split; reflexivity. Qed.

(** The example of the specification: the bedroom reply. *)
Lemma bedroom_example :
  analyze envBedroom png initialState =
    {| images := [ bedroomRecord ];
       selectedImage := Some bedroomRecord;
       isAnalyzing := false;
       chatMessages := [ message model (greeting (lit "Bedroom")) ];
       inputMessage := [];
       isChatting := false;
       error := None |}.
Proof. reflexivity. Qed.

End Runs.

(* ------------------------------------------------------------------ *)
(** ** The general statements at the sample sessions *)

Module Instances.

Import Sample.


(** The service is down while the kitchen session is open. *)
Lemma service_down_keeps_kitchen_session :
  images (analyze envDown png kitchenSession) = images kitchenSession /\
  selectedImage (analyze envDown png kitchenSession) = selectedImage kitchenSession /\
  chatMessages (analyze envDown png kitchenSession) = chatMessages kitchenSession /\
  exists msg, error (analyze envDown png kitchenSession) = Some msg /\ msg <> [].
Proof.
  apply (analyze_failure_keeps_session envDown png kitchenSession).
  reflexivity.
Defined.

(** The service resolves without text on a fresh session. *)
Lemma silent_service_still_records :
  exists rec : AnalysisResult,
    images (analyze envSilent png initialState) = rec :: images initialState /\
    selectedImage (analyze envSilent png initialState) = Some rec /\
    suggestions rec = lit "No suggestions generated." /\
    roomType rec = lit "Unknown Room" /\
    error (analyze envSilent png initialState) = None.
Proof.
  apply (analyze_empty_reply_still_succeeds envSilent png initialState
           {| responseText := None |}).
  - reflexivity.
  - left; reflexivity.
Defined.

(** The pots question in the kitchen session. *)
Lemma kitchen_question_appends_two :
  exists a : jsstring,
    chatMessages (suspended envKitchen (handleSendMessage kitchenAsking) kitchenAsking)
      = chatMessages kitchenAsking
        ++ [ message user (trim (inputMessage kitchenAsking)) ] /\
    chatMessages (sendMessage envKitchen kitchenAsking)
      = chatMessages kitchenAsking
        ++ [ message user (trim (inputMessage kitchenAsking));
             message model a ] /\
    List.length (chatMessages (sendMessage envKitchen kitchenAsking))
      = List.length (chatMessages kitchenAsking) + 2 /\
    (forall t, t <> [] ->
       chatOutcome envKitchen kitchenAsking
         = Resolved {| responseText := Some t |} -> a = t) /\
    (chatOutcome envKitchen kitchenAsking = Resolved {| responseText := None |} \/
     chatOutcome envKitchen kitchenAsking = Resolved {| responseText := Some [] |} ->
       a = emptyReplyFallback) /\
    (chatOutcome envKitchen kitchenAsking = Rejected -> a = chatErrorFallback).
Proof.
  apply (sendMessage_appends_user_then_assistant envKitchen kitchenAsking).
  - reflexivity.
  - reflexivity.
Defined.

(** The reply that names the room inside a sentence. *)
Lemma prose_reply_room_type :
  exists rec : AnalysisResult,
    images (analyze envProse png initialState) = rec :: images initialState /\
    selectedImage (analyze envProse png initialState) = Some rec /\
    error (analyze envProse png initialState) = None /\
    suggestions rec = orElse (Some proseText) noSuggestions /\
    ((forall pre m rest,
         suggestions rec = pre ++ m ++ rest -> ~ sameLetters m roomTypeLiteral) ->
     roomType rec = lit "Unknown Room") /\
    (forall pre m rest,
        suggestions rec = pre ++ m ++ rest ->
        sameLetters m roomTypeLiteral ->
        (forall pre' m' rest',
            suggestions rec = pre' ++ m' ++ rest' ->
            sameLetters m' roomTypeLiteral ->
            List.length pre <= List.length pre') ->
        roomType rec = captured rest).
Proof.
  apply (analyze_room_type_from_leftmost_occurrence envProse png initialState
           {| responseText := Some proseText |}).
  reflexivity.
Defined.

(** Two analyses with the draws 0.5 and 0.25. *)
Lemma half_and_quarter_ids :
  exists r1 r2 : AnalysisResult,
    images (analyze envQuarter png (analyze envHalf png initialState))
      = r2 :: r1 :: images initialState /\
    id r1 = substring 7 (random36 envHalf) /\
    id r2 = substring 7 (random36 envQuarter) /\
    (id r1 <> id r2 <->
     substring 7 (random36 envHalf) <> substring 7 (random36 envQuarter)).
Proof.
  apply (analyze_id_is_random_suffix envHalf envQuarter png png initialState
           {| responseText := Some bedroomText |}
           {| responseText := Some kitchenText |}).
  - reflexivity.
  - reflexivity.
Defined.

End Instances.

(* ------------------------------------------------------------------ *)
(** ** White space and [trim] *)

Section DropWhile.

Variable p : N -> bool.

Lemma dropWhile_headFails (s : jsstring) : headFails p (dropWhile p s).
Proof.
  induction s as [|c s IH]; cbn; [exact I|].
  destruct (p c) eqn:Hc; [exact IH|exact Hc].
Qed.

Lemma dropWhile_fixed (l : jsstring) : headFails p l -> dropWhile p l = l.
Proof. destruct l as [|c l]; cbn; [reflexivity|intros ->; reflexivity]. Qed.

Lemma dropWhile_twice (s : jsstring) :
  dropWhile p (dropWhile p s) = dropWhile p s.
Proof. apply dropWhile_fixed, dropWhile_headFails. Qed.

Lemma dropWhile_nil (s : jsstring) :
  dropWhile p s = [] <-> Forall (fun c => p c = true) s.
Proof.
  induction s as [|c s IH]; cbn.
  - split; [constructor|reflexivity].
  - destruct (p c) eqn:Hc.
    + rewrite IH; split; [intros H; constructor; assumption|].
      intros H; inversion H; assumption.
    + split; [discriminate|]. intros H; inversion H; congruence.
Qed.


Lemma dropWhile_keeps_last (l : jsstring) (c : N) :
  p c = false -> exists x, dropWhile p (l ++ [c]) = x ++ [c].
Proof.
  intros Hc. induction l as [|d l IH]; cbn.
  - rewrite Hc; exists []; reflexivity.
  - destruct (p d); [exact IH|]. exists (d :: l); reflexivity.
Qed.

Lemma takeWhile_all (line : jsstring) :
  Forall (fun c => p c = true) line -> takeWhile p line = line.
Proof. induction 1 as [|c l Hc _ IH]; cbn; [reflexivity|]. now rewrite Hc, IH. Qed.

Lemma takeWhile_stops (line tail : jsstring) (t : N) :
  Forall (fun c => p c = true) line -> p t = false ->
  takeWhile p (line ++ t :: tail) = line.
Proof.
  intros Hline Ht. induction Hline as [|c l Hc _ IH]; cbn.
  - now rewrite Ht.
  - now rewrite Hc, IH.
Qed.

Lemma takeWhile_Forall (s : jsstring) :
  Forall (fun c => p c = true) (takeWhile p s).
Proof.
  induction s as [|c s IH]; cbn; [constructor|].
  destruct (p c) eqn:Hc; constructor; assumption.
Qed.

End DropWhile.

Lemma dropWhile_Forall (p : N -> bool) (Q : N -> Prop) (s : jsstring) :
  Forall Q s -> Forall Q (dropWhile p s).
Proof.
  induction 1 as [|c s Hc Hs IH]; cbn; [constructor|].
  destruct (p c); [exact IH|constructor; assumption].
Qed.

Lemma trim_Forall (Q : N -> Prop) (s : jsstring) :
  Forall Q s -> Forall Q (trim s).
Proof.
  intros H. unfold trim, trimEnd, trimStart.
  apply Forall_rev, dropWhile_Forall, Forall_rev, dropWhile_Forall, H.
Qed.

Lemma trimEnd_twice (a : jsstring) : trimEnd (trimEnd a) = trimEnd a.
Proof.
  unfold trimEnd. now rewrite rev_involutive, dropWhile_twice.
Qed.

(** [trim] leaves nothing exactly when the string is white space only. *)
Lemma trim_nil (s : jsstring) :
  trim s = [] <-> Forall (fun c => isSpace c = true) s.
Proof.
  unfold trim, trimEnd, trimStart. split.
  - intros H. apply (f_equal (@rev N)) in H.
    rewrite rev_involutive in H; cbn in H.
    apply dropWhile_nil, Forall_rev in H. rewrite rev_involutive in H.
    pose proof (dropWhile_headFails isSpace s) as Hhead.
    destruct (dropWhile isSpace s) as [|c a] eqn:Ha.
    + now apply dropWhile_nil.
    + inversion H; cbn in Hhead; congruence.
  - intros H. apply dropWhile_nil in H. now rewrite H.
Qed.

(** A trimmed string starts and ends with something other than white
    space. *)
Lemma trim_trimmed (s : jsstring) : trimmed (trim s).
Proof.
  unfold trim, trimEnd, trimStart.
  pose proof (dropWhile_headFails isSpace s) as Hhead.
  destruct (dropWhile isSpace s) as [|c a]; [exact I|]. cbn in Hhead.
  cbn [rev].
  destruct (dropWhile_keeps_last isSpace (rev a) c Hhead) as (x & Hx).
  pose proof (dropWhile_headFails isSpace (rev a ++ [c])) as Hb.
  rewrite Hx in *. rewrite rev_app_distr; cbn [rev app].
  split; [exact Hhead|].
  destruct x as [|d x]; [exact Hhead|].
  cbn [rev]. change (c :: rev x ++ [d]) with ((c :: rev x) ++ [d]).
  rewrite last_last. exact Hb.
Qed.

Lemma trimmed_trimStart (t : jsstring) : trimmed t -> trimStart t = t.
Proof.
  intros H; apply dropWhile_fixed. destruct t; [exact I|apply H].
Qed.

Lemma trimmed_trimEnd (t : jsstring) : trimmed t -> trimEnd t = t.
Proof.
  intros H. unfold trimEnd.
  destruct t as [|c t]; [reflexivity|]. destruct H as [_ Hlast].
  rewrite dropWhile_fixed; [apply rev_involutive|].
  destruct (exists_last (l := c :: t)) as (front & d & Heq); [discriminate|].
  rewrite Heq in *. rewrite last_last in Hlast.
  rewrite rev_app_distr; exact Hlast.
Qed.

(** [trim] is idempotent: a trimmed string has no white space left at
    either end, and trimming it again changes nothing. *)
Lemma trim_idempotent (s : jsstring) :
  trimmed (trim s) /\ trim (trim s) = trim s.
Proof.
  split; [apply trim_trimmed|].
  unfold trim at 1.
  rewrite (trimmed_trimStart (trim s) (trim_trimmed s)).
  apply trimmed_trimEnd, trim_trimmed.
Qed.

(* ------------------------------------------------------------------ *)
(** ** More on [handleSendMessage] *)

Lemma accepted_text (s : State) :
  accepted s -> trim (inputMessage s) <> [] /\ isChatting s = false.
Proof.
  intros [Htext Hidle]; split; [|exact Hidle].
  destruct (trim (inputMessage s)); [discriminate|discriminate].
Qed.

Lemma requestTexts_chatRequest (l : list ChatMessage) (u : jsstring) :
  requestTexts (chatRequest l u) = map text l ++ [u].
Proof.
  unfold requestTexts, chatRequest; cbn [gcContents].
  induction l as [|m l IH]; cbn; [reflexivity|]. now rewrite <- IH.
Qed.

Lemma contentRoles_chatRequest (l : list ChatMessage) (u : jsstring) :
  map contentRole (contentsOf (chatRequest l u))
    = map (fun m => Some (role m)) l ++ [Some user].
Proof.
  unfold contentsOf, chatRequest; cbn [gcContents].
  rewrite map_app, map_map; reflexivity.
Qed.

Lemma framing_includes (img : AnalysisResult) :
  includes (framing (Some img)) (roomType img) /\
  includes (framing (Some img)) (suggestions img).
Proof.
  unfold includes, framing; split.
  - eexists; eexists; reflexivity.
  - exists (lit "You are an expert interior organizer. You are currently helping the user with their "
            ++ roomType img ++ lit ". Use the previous analysis as context: "), [].
    now rewrite app_nil_r, <- !app_assoc.
Qed.

Section ChatMore.

Variable env : Env.
Variable s : State.

(** X1.  When the chat box holds nothing but white space (the empty string
    included), or a chat request is already in flight, [handleSendMessage]
    does nothing at all: the state is the same and no call is made on the
    client. *)
Theorem sendMessage_refuses_blank_or_busy :
  Forall (fun c => isSpace c = true) (inputMessage s) \/ isChatting s = true ->
  run env (handleSendMessage s) s [] = (s, []).
Proof.
  intros Hwhy. apply sendMessage_refused. intros Hacc.
  destruct (accepted_text s Hacc) as [Htext Hidle].
  destruct Hwhy as [Hblank|Hbusy]; [|congruence].
  apply Htext, trim_nil, Hblank.
Qed.

(** X2.  The user turn an accepted message adds to the transcript carries
    the trimmed text of the chat box: it is not empty and has no white
    space at either end. *)
Theorem sendMessage_user_text_normalised :
  accepted s ->
  exists t : jsstring,
    nth_error (chatMessages (sendMessage env s)) (List.length (chatMessages s))
      = Some (message user t) /\
    t = trim (inputMessage s) /\
    t <> [] /\
    trimmed t.
Proof.
  intros Hacc. exists (trim (inputMessage s)).
  unfold sendMessage; rewrite (sendMessage_run env s Hacc); cbn [fst chatMessages].
  split; [|split; [reflexivity|split]].
  - rewrite <- app_assoc, nth_error_app2, PeanoNat.Nat.sub_diag by lia. reflexivity.
  - apply (accepted_text s Hacc).
  - apply trim_trimmed.
Qed.

(** X3.  An accepted chat turn raises [isChatting] and empties the chat box
    before the request is awaited, and lowers [isChatting] again whether the
    request resolves or rejects.  It never touches the gallery, the
    selection, the analysis flag or the error banner: a failed chat leaves
    no error. *)
Theorem sendMessage_frame :
  accepted s ->
  isChatting (suspended env (handleSendMessage s) s) = true /\
  inputMessage (suspended env (handleSendMessage s) s) = [] /\
  isChatting (sendMessage env s) = false /\
  inputMessage (sendMessage env s) = [] /\
  images (sendMessage env s) = images s /\
  selectedImage (sendMessage env s) = selectedImage s /\
  isAnalyzing (sendMessage env s) = isAnalyzing s /\
  error (sendMessage env s) = error s.
Proof.
  intros Hacc. unfold sendMessage.
  rewrite (sendMessage_run env s Hacc), (sendMessage_suspended env s Hacc).
  repeat split.
Qed.

(** X4.  An accepted chat turn makes exactly two calls on the client.  The
    first builds a chat session whose system instruction embeds the room
    type and the whole stored suggestions of the selected record.  The
    second is the completion request: its contents are the transcript as it
    was before the turn, message by message with the roles kept, followed
    by the trimmed new text as a user turn. *)
Theorem sendMessage_calls :
  accepted s ->
  exists req : GenerateContentParameters,
    sendMessageCalls env s
      = [ CallChatsCreate (chatSession (selectedImage s));
          CallGenerateContent req ] /\
    gcModel req = MODEL_NAME /\
    map contentRole (contentsOf req)
      = map (fun m => Some (role m)) (chatMessages s) ++ [Some user] /\
    requestTexts req = map text (chatMessages s) ++ [trim (inputMessage s)] /\
    (forall img, selectedImage s = Some img ->
       exists instr,
         ccConfig (chatSession (selectedImage s))
           = Some {| systemInstruction := Some instr |} /\
         includes instr (roomType img) /\
         includes instr (suggestions img)).
Proof.
  intros Hacc.
  exists (chatRequest (chatMessages s) (trim (inputMessage s))).
  unfold sendMessageCalls; rewrite (sendMessage_run env s Hacc); cbn [snd].
  split; [reflexivity|split; [reflexivity|]].
  split; [apply contentRoles_chatRequest|].
  split; [apply requestTexts_chatRequest|].
  intros img ->. exists (framing (Some img)).
  split; [reflexivity|apply framing_includes].
Qed.

(** X5.  Pressing send twice in a row sends once: the first press empties
    the chat box, so the second one is refused, whatever the service would
    have answered. *)
Theorem sendMessage_twice (env' : Env) :
  sendMessage env' (sendMessage env s) = sendMessage env s /\
  sendMessageCalls env' (sendMessage env s) = [].
Proof.
  assert (Hstop : ~ accepted (sendMessage env s)).
  { intros [Htext Hidle]. revert Htext Hidle. unfold sendMessage.
    destruct (truthy (trim (inputMessage s))) eqn:Ht;
      destruct (isChatting s) eqn:Hc;
      try (rewrite (sendMessage_refused env s) by (intros [? ?]; congruence);
           cbn [fst]; congruence).
    rewrite (sendMessage_run env s (conj Ht Hc)); cbn. discriminate. }
  unfold sendMessage at 1, sendMessageCalls.
  rewrite (sendMessage_refused env' _ Hstop). split; reflexivity.
Qed.

(** X7.  The reply of a chat turn is appended to the transcript that is
    current when the request settles, not to the one the turn started from:
    whatever the session has become meanwhile, the handler appends one model
    message to it and lowers [isChatting], and changes nothing else.  The
    request itself was built from the transcript at the start. *)
Theorem sendMessage_reply_lands_on_current_state :
  accepted s ->
  exists (pending : Pending) (calls : list SdkCall),
    advance env (handleSendMessage s) s []
      = (suspended env (handleSendMessage s) s, calls, Some pending) /\
    requestsOf calls
      = [ chatRequest (chatMessages s) (trim (inputMessage s)) ] /\
    forall current : State,
      finish env pending current =
        {| images := images current;
           selectedImage := selectedImage current;
           isAnalyzing := isAnalyzing current;
           chatMessages :=
             chatMessages current
             ++ [ message model (assistantText (chatOutcome env s)) ];
           inputMessage := inputMessage current;
           isChatting := false;
           error := error current |}.
Proof.
  intros Hacc. rewrite (sendMessage_suspended env s Hacc).
  destruct Hacc as [Htext Hidle].
  unfold handleSendMessage, chatOutcome. rewrite Htext, Hidle; cbn [negb orb].
  eexists; eexists; split; [reflexivity|split; [reflexivity|]].
  intros current. unfold finish, settle.
  destruct (generateContent env _) as [response|]; reflexivity.
Qed.

End ChatMore.

(* ------------------------------------------------------------------ *)
(** ** More on [processImage] *)

Lemma split_no_separator (sep : N) (s : jsstring) :
  ~ In sep s -> split sep s = [s].
Proof.
  induction s as [|c s IH]; intros Hno; cbn; [reflexivity|].
  destruct (N.eqb_spec c sep) as [->|_]; [exfalso; apply Hno; left; reflexivity|].
  rewrite IH; [reflexivity|]. intros Hin; apply Hno; right; exact Hin.
Qed.

Lemma split_first_separator (sep : N) (h rest : jsstring) :
  ~ In sep h -> split sep (h ++ sep :: rest) = h :: split sep rest.
Proof.
  induction h as [|c h IH]; intros Hno; cbn.
  - now rewrite N.eqb_refl.
  - destruct (N.eqb_spec c sep) as [->|_]; [exfalso; apply Hno; left; reflexivity|].
    rewrite IH; [reflexivity|]. intros Hin; apply Hno; right; exact Hin.
Qed.

Lemma roomTypeOf_literal_first (l rest : jsstring) :
  sameLetters l roomTypeLiteral -> roomTypeOf (l ++ rest) = captured rest.
Proof.
  intros Hl. unfold roomTypeOf.
  pose proof (roomTypeMatch_first [] l rest Hl) as Hfirst.
  cbn [app] in Hfirst. rewrite Hfirst; [reflexivity|].
  intros; cbn; lia.
Qed.

Lemma dropWhile_inside (line tail : jsstring) :
  Exists (fun c => isSpace c = false) line ->
  dropWhile isSpace (line ++ tail) = dropWhile isSpace line ++ tail.
Proof.
  induction line as [|c line IH]; intros Hex; [inversion Hex|].
  cbn. destruct (isSpace c) eqn:Hc; [|reflexivity].
  apply IH. inversion Hex; [congruence|assumption].
Qed.

Lemma notLineTerminator_Forall (line : jsstring) :
  Forall (fun c => isLineTerminator c = false) line ->
  Forall (fun c => notLineTerminator c = true) line.
Proof.
  apply Forall_impl; intros c Hc; unfold notLineTerminator; now rewrite Hc.
Qed.

Section AnalysisMore.

Variable env : Env.
Variable file : File.
Variable s : State.

(** X8.  [processImage] clears the error banner before its first await,
    and whatever the outcome it leaves the chat box and the chat flag as
    they were. *)
Theorem analyze_frame :
  error (suspended env (processImage file) s) = None /\
  inputMessage (analyze env file s) = inputMessage s /\
  isChatting (analyze env file s) = isChatting s.
Proof.
  split; [reflexivity|].
  destruct (analysisOutcome env file) as [resp|] eqn:Hout.
  - rewrite (analyze_resolved env file s resp Hout); split; reflexivity.
  - rewrite (analyze_rejected env file s Hout); split; reflexivity.
Qed.

(** X9.  [processImage] makes at most one call on the client: none when the
    file cannot be read, otherwise the one completion request that carries
    the file's type, the payload of its data URL and the fixed prompt.  It
    does not call again after a rejection. *)
Theorem analyze_calls :
  snd (run env (processImage file) s []) =
    match readAsDataURL env file with
    | Rejected => []
    | Resolved base64Data =>
        [ CallGenerateContent (analysisRequest file base64Data) ]
    end.
Proof.
  unfold processImage; cbn [run].
  destruct (readAsDataURL env file) as [base64Data|]; [|reflexivity].
  cbn [run app].
  destruct (generateContent env _) as [resp|]; reflexivity.
Qed.

End AnalysisMore.

(** X10.  The image data sent to the service is the payload of the data
    URL: what follows its first comma (a base64 payload has no comma of its
    own).  A data URL without a comma sends no data at all. *)
Theorem analysisRequest_inline_data (file : File) (header payload : jsstring) :
  ~ In 44%N header ->
  ~ In 44%N payload ->
  map parts (contentsOf (analysisRequest file (header ++ 44%N :: payload)))
    = [ [ InlineData (fileType file) (Some payload); Text analysisPrompt ] ] /\
  map parts (contentsOf (analysisRequest file header))
    = [ [ InlineData (fileType file) None; Text analysisPrompt ] ].
Proof.
  intros Hh Hp. unfold analysisRequest, contentsOf; cbn [gcContents map parts].
  rewrite (split_first_separator 44 header payload Hh).
  rewrite (split_no_separator 44 payload Hp), (split_no_separator 44 header Hh).
  split; reflexivity.
Qed.

(** X11.  A reply laid out as the prompt asks, beginning with "Room Type:"
    in any letter case, gives the rest of its first line, trimmed, as the
    room type, provided that rest is not blank. *)
Theorem roomTypeOf_first_line (l line tail : jsstring) :
  sameLetters l roomTypeLiteral ->
  Forall (fun c => isLineTerminator c = false) line ->
  Exists (fun c => isSpace c = false) line ->
  headFails notLineTerminator tail ->
  roomTypeOf (l ++ line ++ tail) = trim line.
Proof.
  intros Hl Hline Hink Htail.
  rewrite (roomTypeOf_literal_first l (line ++ tail) Hl). unfold captured.
  rewrite (dropWhile_inside line tail Hink).
  assert (Hkept : Forall (fun c => notLineTerminator c = true)
                         (dropWhile isSpace line))
    by (apply dropWhile_Forall, notLineTerminator_Forall, Hline).
  assert (Htake : takeWhile notLineTerminator (dropWhile isSpace line ++ tail)
                  = dropWhile isSpace line).
  { destruct tail as [|t tail'].
    - rewrite app_nil_r. apply takeWhile_all, Hkept.
    - apply takeWhile_stops; [exact Hkept|exact Htail]. }
  rewrite Htake. unfold trim, trimStart. now rewrite dropWhile_twice.
Qed.


(** Whatever the reply, the room type is a single line without white space
    at either end. *)
Lemma roomTypeOf_single_trimmed_line (resultText : jsstring) :
  Forall (fun c => isLineTerminator c = false) (roomTypeOf resultText) /\
  trimmed (roomTypeOf resultText).
Proof.
  unfold roomTypeOf.
  destruct (roomTypeMatch resultText) as [capture|] eqn:Hmatch.
  - split; [|apply trim_trimmed].
    apply trim_Forall.
    assert (Hcap : exists rest,
               capture = takeWhile notLineTerminator (dropWhile isSpace rest)).
    { clear - Hmatch. induction resultText as [|c text IH].
      - cbn in Hmatch. discriminate.
      - cbn [roomTypeMatch] in Hmatch. unfold matchHere in *.
        destruct (stripLiteral roomTypeLiteral (c :: text)) as [rest|].
        + injection Hmatch as <-. exists rest; reflexivity.
        + apply IH, Hmatch. }
    destruct Hcap as (rest & ->).
    eapply Forall_impl; [|apply takeWhile_Forall].
    intros c; unfold notLineTerminator. now destruct (isLineTerminator c).
  - split; [repeat constructor|split; reflexivity].
Qed.


(* ------------------------------------------------------------------ *)
(** ** More on [deleteImage] *)

Lemma filter_twice {A : Type} (f : A -> bool) (l : list A) :
  filter f (filter f l) = filter f l.
Proof.
  induction l as [|a l IH]; cbn; [reflexivity|].
  destruct (f a) eqn:Ha; cbn; [rewrite Ha, IH; reflexivity|exact IH].
Qed.

Lemma filter_keeps_all {A : Type} (f : A -> bool) (l : list A) :
  (forall a, In a l -> f a = true) -> filter f l = l.
Proof.
  induction l as [|a l IH]; intros Hall; cbn; [reflexivity|].
  rewrite (Hall a) by (left; reflexivity).
  rewrite IH; [reflexivity|]. intros b Hb; apply Hall; right; exact Hb.
Qed.

Lemma id_differs (a b : jsstring) : a <> b -> negb (JS.eqb a b) = true.
Proof.
  intros Hne. destruct (JS.eqb a b) eqn:Heq; [|reflexivity].
  apply eqb_eq in Heq; contradiction.
Qed.

(** X14.  Deleting the same id twice is the same as deleting it once. *)
Theorem deleteRecord_twice (env env' : Env) (id0 : jsstring) (s : State) :
  deleteRecord env' id0 (deleteRecord env id0 s) = deleteRecord env id0 s.
Proof.
  unfold deleteRecord, deleteImage; cbn [run].
  destruct (selectedHasId (selectedImage s) id0) eqn:Hsel; cbn [run fst].
  - unfold setImages, setChatMessages, setSelectedImage; cbn.
    now rewrite filter_twice.
  - cbn. rewrite Hsel. unfold setImages; cbn. now rewrite filter_twice.
Qed.

(** X15.  Deleting an id that no gallery record has changes nothing, in a
    session whose selection is one of the gallery. *)
Theorem deleteRecord_absent (env : Env) (id0 : jsstring) (s : State) :
  (forall img, In img (images s) -> id img <> id0) ->
  selectionInGallery s ->
  deleteRecord env id0 s = s.
Proof.
  intros Habsent Hsel. unfold deleteRecord, deleteImage; cbn [run].
  assert (Hno : selectedHasId (selectedImage s) id0 = false).
  { unfold selectionInGallery in Hsel.
    destruct (selectedImage s) as [img|]; [|reflexivity]. cbn.
    apply negb_true_iff, id_differs, Habsent, Hsel. }
  rewrite Hno; cbn. unfold setImages.
  rewrite filter_keeps_all; [destruct s; reflexivity|].
  intros img Hin; apply id_differs, Habsent, Hin.
Qed.

(** X16.  Deleting the record an analysis has just created undoes the
    analysis on the gallery when no older record shares its id: the gallery
    is what it was, nothing is selected and the transcript is empty. *)
Theorem analyze_then_delete
  (env env' : Env) (file : File) (s : State) (resp : GenerateContentResponse) :
  analysisOutcome env file = Resolved resp ->
  (forall img, In img (images s) -> id img <> substring 7 (random36 env)) ->
  images (deleteRecord env' (substring 7 (random36 env)) (analyze env file s))
    = images s /\
  selectedImage (deleteRecord env' (substring 7 (random36 env)) (analyze env file s))
    = None /\
  chatMessages (deleteRecord env' (substring 7 (random36 env)) (analyze env file s))
    = [].
Proof.
  intros Hok Hfresh. rewrite (analyze_resolved env file s resp Hok).
  unfold deleteRecord, deleteImage; cbn [run selectedImage].
  assert (Hself : JS.eqb (substring 7 (random36 env)) (substring 7 (random36 env)) = true)
    by (apply eqb_eq; reflexivity).
  cbn [selectedHasId newRecord id]. rewrite Hself. cbn [run fst].
  unfold setChatMessages, setSelectedImage, setImages;
    cbn [images selectedImage chatMessages filter newRecord id].
  rewrite Hself; cbn [negb].
  rewrite filter_keeps_all; [repeat split|].
  intros img Hin; apply id_differs, Hfresh, Hin.
Qed.

(* ------------------------------------------------------------------ *)
(** ** Runs of uploads, and results that arrive late *)



(** X18.  The result of an analysis is applied to the session as it is when
    the service call settles.  On success the new record goes in front of
    the gallery of that moment and becomes the selection, and the
    transcript of that moment is replaced by the greeting; on rejection
    only the error banner and the analysis flag change.  Chat box, chat
    flag and, on success, the error banner are those of that moment. *)
Theorem analyze_result_lands_on_current_state
  (env : Env) (file : File) (s : State) (base64Data : jsstring) :
  readAsDataURL env file = Resolved base64Data ->
  exists (reading requesting : Pending),
    advance env (processImage file) s []
      = (suspended env (processImage file) s, [], Some reading) /\
    (forall mid : State,
        advance env (settle env reading) mid []
          = (mid, [ CallGenerateContent (analysisRequest file base64Data) ],
             Some requesting)) /\
    forall current : State,
      finish env requesting current =
        match generateContent env (analysisRequest file base64Data) with
        | Resolved resp =>
            {| images := newRecord env file resp :: images current;
               selectedImage := Some (newRecord env file resp);
               isAnalyzing := false;
               chatMessages :=
                 [ message model (greeting (roomType (newRecord env file resp))) ];
               inputMessage := inputMessage current;
               isChatting := isChatting current;
               error := error current |}
        | Rejected =>
            {| images := images current;
               selectedImage := selectedImage current;
               isAnalyzing := false;
               chatMessages := chatMessages current;
               inputMessage := inputMessage current;
               isChatting := isChatting current;
               error := Some analysisErrorMessage |}
        end.
Proof.
  intros Hread. unfold processImage; cbn [advance suspended].
  eexists; eexists; split; [reflexivity|].
  unfold settle at 1. rewrite Hread.
  split; [intros mid; cbn [advance app]; reflexivity|].
  intros current. unfold finish, settle.
  destruct (generateContent env (analysisRequest file base64Data)) as [resp|];
    reflexivity.
Qed.

(* ------------------------------------------------------------------ *)
(** ** One event, handled to completion *)

(** The fields of the session after [deleteImage]. *)
Lemma deleteRecord_fields (env : Env) (id0 : jsstring) (s : State) :
  deleteRecord env id0 s =
    {| images := filter (fun img => negb (JS.eqb (id img) id0)) (images s);
       selectedImage :=
         if selectedHasId (selectedImage s) id0 then None else selectedImage s;
       isAnalyzing := isAnalyzing s;
       chatMessages :=
         if selectedHasId (selectedImage s) id0 then [] else chatMessages s;
       inputMessage := inputMessage s;
       isChatting := isChatting s;
       error := error s |}.
Proof.
  unfold deleteRecord, deleteImage; cbn [run].
  destruct (selectedHasId (selectedImage s) id0); reflexivity.
Qed.

(** A chat turn is refused, or accepted with the effect of
    [sendMessage_run]. *)
Lemma sendMessage_cases (env : Env) (s : State) :
  sendMessage env s = s \/
  (accepted s /\
   sendMessage env s =
     {| images := images s;
        selectedImage := selectedImage s;
        isAnalyzing := isAnalyzing s;
        chatMessages :=
          chatMessages s
          ++ [ message user (trim (inputMessage s));
               message model (assistantText (chatOutcome env s)) ];
        inputMessage := [];
        isChatting := false;
        error := error s |}).
Proof.
  unfold sendMessage.
  destruct (truthy (trim (inputMessage s))) eqn:Ht;
    destruct (isChatting s) eqn:Hc;
    try (left; rewrite (sendMessage_refused env s) by (intros [? ?]; congruence);
         reflexivity).
  right. split; [split; assumption|].
  rewrite (sendMessage_run env s (conj Ht Hc)); cbn [fst].
  now rewrite <- app_assoc.
Qed.

(** An upload is an analysis of the first file, a failure of it, or
    nothing. *)
Lemma upload_cases (env : Env) (files : list File) (s : State) :
  step env (FileChosen files) s = s \/
  (exists file rest resp,
      files = file :: rest /\
      analysisOutcome env file = Resolved resp /\
      step env (FileChosen files) s =
        {| images := newRecord env file resp :: images s;
           selectedImage := Some (newRecord env file resp);
           isAnalyzing := false;
           chatMessages :=
             [ message model (greeting (roomType (newRecord env file resp))) ];
           inputMessage := inputMessage s;
           isChatting := isChatting s;
           error := None |}) \/
  step env (FileChosen files) s =
    {| images := images s;
       selectedImage := selectedImage s;
       isAnalyzing := false;
       chatMessages := chatMessages s;
       inputMessage := inputMessage s;
       isChatting := isChatting s;
       error := Some analysisErrorMessage |}.
Proof.
  destruct files as [|file rest]; [left; reflexivity|].
  change (step env (FileChosen (file :: rest)) s) with (analyze env file s).
  destruct (analysisOutcome env file) as [resp|] eqn:Hout.
  - right; left. exists file, rest, resp.
    split; [reflexivity|split; [exact Hout|]].
    apply (analyze_resolved env file s resp Hout).
  - right; right. apply (analyze_rejected env file s Hout).
Qed.

Lemma orElse_nonempty (v : option jsstring) (d : jsstring) :
  d <> [] -> orElse v d <> [].
Proof.
  intros Hd. destruct v as [[|c t]|]; cbn; [exact Hd|discriminate|exact Hd].
Qed.

Lemma assistantText_nonempty (o : Settled GenerateContentResponse) :
  assistantText o <> [].
Proof.
  destruct o as [response|]; cbn; [|discriminate].
  apply orElse_nonempty; discriminate.
Qed.

Lemma newRecord_wellFormed (env : Env) (file : File) (resp : GenerateContentResponse) :
  wellFormedRecord (newRecord env file resp).
Proof.
  unfold wellFormedRecord, newRecord; cbn [suggestions roomType].
  split; [apply orElse_nonempty; discriminate|].
  apply roomTypeOf_single_trimmed_line.
Qed.

Lemma filter_Forall {A : Type} (P : A -> Prop) (f : A -> bool) (l : list A) :
  Forall P l -> Forall P (filter f l).
Proof.
  induction 1 as [|a l Ha _ IH]; cbn; [constructor|].
  destruct (f a); [constructor; assumption|exact IH].
Qed.

(** X23.  No handler edits a gallery record in place.  After any event,
    every record of the gallery was there before or is the one record a
    successful upload has just built; and every event but a delete keeps
    all the records that were there. *)
Theorem step_gallery (env : Env) (ev : Event) (s : State) :
  (forall img, In img (images (step env ev s)) ->
     In img (images s) \/
     exists file rest resp,
       ev = FileChosen (file :: rest) /\
       analysisOutcome env file = Resolved resp /\
       img = newRecord env file resp) /\
  ((forall id0, ev <> DeleteClicked id0) ->
   forall img, In img (images s) -> In img (images (step env ev s))).
Proof.
  destruct ev as [files|value| |img0|id0].
  - destruct (upload_cases env files s)
      as [->|[(f & r & resp & -> & Hok & ->)| ->]]; cbn [images].
    + split; auto.
    + split.
      * intros img [<-|Hin]; [right|left; exact Hin].
        exists f, r, resp; repeat split; assumption.
      * intros _ img Hin; right; exact Hin.
    + split; auto.
  - split; cbn; auto.
  - change (step env SendPressed s) with (sendMessage env s).
    destruct (sendMessage_cases env s) as [->|[_ ->]]; split; cbn; auto.
  - split; cbn; auto.
  - change (step env (DeleteClicked id0) s) with (deleteRecord env id0 s).
    rewrite deleteRecord_fields; cbn [images]. split.
    + intros img Hin; left. apply filter_In in Hin; apply Hin.
    + intros Hnot; exfalso; apply (Hnot id0); reflexivity.
Qed.

(** Scanning the positions before [n] and finding no match there shows
    that no occurrence of the literal starts before [n]. *)
Lemma leftmost_by_scan (txt : jsstring) (n : nat) :
  (forall k, k < n -> stripLiteral roomTypeLiteral (skipn k txt) = None) ->
  forall pre' m' rest',
    txt = pre' ++ m' ++ rest' ->
    sameLetters m' roomTypeLiteral ->
    n <= List.length pre'.
Proof.
  intros Hscan pre' m' rest' -> Hm.
  destruct (PeanoNat.Nat.le_gt_cases n (List.length pre')) as [Hle|Hlt];
    [exact Hle|].
  specialize (Hscan (List.length pre') Hlt).
  rewrite skipn_app, skipn_all, PeanoNat.Nat.sub_diag in Hscan.
  cbn [skipn app] in Hscan.
  assert (Hhit : stripLiteral roomTypeLiteral (m' ++ rest') = Some rest')
    by (apply stripLiteral_Some; exists m'; split; [reflexivity|exact Hm]).
  congruence.
Qed.

(** X13.  A reply whose leftmost "Room Type:", in any letter case and
    anywhere in the text, is followed by white space only yields the empty
    room type, not the sentinel "Unknown Room". *)
Theorem roomTypeOf_blank_is_empty (pre l blank : jsstring) :
  sameLetters l roomTypeLiteral ->
  (forall pre' m' rest',
      pre ++ l ++ blank = pre' ++ m' ++ rest' ->
      sameLetters m' roomTypeLiteral ->
      List.length pre <= List.length pre') ->
  Forall (fun c => isSpace c = true) blank ->
  roomTypeOf (pre ++ l ++ blank) = [] /\
  roomTypeOf (pre ++ l ++ blank) <> lit "Unknown Room".
Proof.
  intros Hl Hleft Hblank. unfold roomTypeOf.
  rewrite (roomTypeMatch_first pre l blank Hl Hleft).
  apply dropWhile_nil in Hblank. rewrite Hblank.
  split; [reflexivity|discriminate].
Qed.

(* ------------------------------------------------------------------ *)
(** ** The page while requests are pending *)

(** What [processImage] leaves pending at its first await. *)
Lemma processImage_pending (env : Env) (file : File) (s : State) :
  exists p : Pending,
    advance env (processImage file) s []
      = (setError None (setIsAnalyzing true s), [], Some p) /\
    isChatPending p = false /\
    behaved p.
Proof.
  unfold processImage; cbn [advance].
  eexists; split; [reflexivity|]. split; [reflexivity|].
  right; split; [reflexivity|]. intros env1 s1. unfold settle.
  destruct (readAsDataURL env1 file) as [base64Data|].
  - right. cbn [advance app].
    eexists; eexists; split; [reflexivity|]. split; [reflexivity|].
    intros env2 s2. unfold settle.
    change (isChatPending (PendingRequest (analysisRequest file base64Data) _))
      with false.
    cbn iota.
    destruct (generateContent env2 (analysisRequest file base64Data)) as [resp|];
      cbn [advance]; eexists; eexists; (split; [reflexivity|]).
    + left.
      exists {| id := substring 7 (random36 env2);
                imageUrl := createObjectURL env1 file;
                timestamp := now env2;
                suggestions := orElse (responseText resp) noSuggestions;
                roomType := roomTypeOf (orElse (responseText resp) noSuggestions) |}.
      split; [|reflexivity].
      split; [apply orElse_nonempty; discriminate|].
      apply roomTypeOf_single_trimmed_line.
    + right; reflexivity.
  - left. cbn [advance processImage_catch processImage_finally].
    eexists; eexists; split; [reflexivity|]. right; reflexivity.
Qed.

(** What an accepted [handleSendMessage] leaves pending. *)
Lemma handleSendMessage_pending (env : Env) (s : State) :
  accepted s ->
  exists (p : Pending) (calls : list SdkCall),
    advance env (handleSendMessage s) s []
      = ({| images := images s;
            selectedImage := selectedImage s;
            isAnalyzing := isAnalyzing s;
            chatMessages :=
              chatMessages s ++ [ message user (trim (inputMessage s)) ];
            inputMessage := [];
            isChatting := true;
            error := error s |}, calls, Some p) /\
    isChatPending p = true /\
    lastStage p.
Proof.
  intros [Htext Hidle]. unfold handleSendMessage.
  rewrite Htext, Hidle; cbn [negb orb advance app].
  eexists; eexists; split; [reflexivity|]. split; [reflexivity|].
  intros env1 s1. unfold settle.
  change (isChatPending
            (PendingRequest (chatRequest (chatMessages s) (trim (inputMessage s))) _))
    with true.
  cbn iota.
  destruct (generateContent env1 _) as [resp|];
    cbn [advance handleSendMessage_finally]; eexists; eexists;
    (split; [reflexivity|]).
  - exists (orElse (responseText resp) emptyReplyFallback).
    split; [apply orElse_nonempty; discriminate|reflexivity].
  - exists chatErrorFallback. split; [discriminate|reflexivity].
Qed.

Lemma page_eta (pg : Page) : mkPage (session pg) (inFlight pg) = pg.
Proof. destruct pg; reflexivity. Qed.

(** What an event does to the page: it is handled at once, or it starts an
    analysis, or it starts a chat turn. *)
Lemma fire_cases (env : Env) (ev : Event) (pg : Page) :
  (exists s' : State,
      fire env ev pg = mkPage s' (inFlight pg) /\
      (s' = session pg \/
       (exists value, ev = Typed value /\ s' = setInputMessage value (session pg)) \/
       (exists img, ev = TileClicked img /\
                    s' = setSelectedImage (Some img) (session pg)) \/
       (exists id0, ev = DeleteClicked id0 /\
                    s' = deleteRecord env id0 (session pg)))) \/
  (exists (p : Pending),
      fire env ev pg
        = mkPage (setError None (setIsAnalyzing true (session pg)))
                 (p :: inFlight pg) /\
      isChatPending p = false /\
      behaved p) \/
  (accepted (session pg) /\
   exists (p : Pending),
      fire env ev pg
        = mkPage {| images := images (session pg);
                    selectedImage := selectedImage (session pg);
                    isAnalyzing := isAnalyzing (session pg);
                    chatMessages :=
                      chatMessages (session pg)
                      ++ [ message user (trim (inputMessage (session pg))) ];
                    inputMessage := [];
                    isChatting := true;
                    error := error (session pg) |}
                 (p :: inFlight pg) /\
      isChatPending p = true /\
      lastStage p).
Proof.
  unfold fire. destruct ev as [files|value| |img|id0]; cbn [handlerOf].
  - destruct files as [|file rest].
    + left. exists (session pg); split; [reflexivity|left; reflexivity].
    + right; left. cbn [handleFileUpload].
      destruct (processImage_pending env file (session pg)) as (p & -> & Hp).
      exists p; split; [reflexivity|exact Hp].
  - left. eexists; split; [reflexivity|]. right; left. eexists; split; reflexivity.
  - destruct (truthy (trim (inputMessage (session pg)))) eqn:Ht;
      destruct (isChatting (session pg)) eqn:Hc;
      try (left; exists (session pg); unfold handleSendMessage;
           rewrite Ht, Hc; split; [reflexivity|left; reflexivity]).
    right; right. split; [split; assumption|].
    destruct (handleSendMessage_pending env (session pg) (conj Ht Hc))
      as (p & calls & -> & Hp).
    exists p; split; [reflexivity|exact Hp].
  - left. eexists; split; [reflexivity|].
    right; right; left. eexists; split; reflexivity.
  - left. exists (deleteRecord env id0 (session pg)). split.
    + unfold deleteRecord, deleteImage; cbn [advance run].
      destruct (selectedHasId (selectedImage (session pg)) id0); reflexivity.
    + right; right; right. exists id0; split; reflexivity.
Qed.

(** What a settlement does to the page: the handler finishes, or the file
    read of an analysis goes on to its request. *)
Lemma settled_cases (env : Env) (p : Pending) (s : State) (others : list Pending) :
  behaved p ->
  (exists s' : State,
      settled env p s others = mkPage s' others /\
      if isChatPending p then endsChat s s' else endsAnalysis s s') \/
  (isChatPending p = false /\
   exists p' : Pending,
     settled env p s others = mkPage s (p' :: others) /\
     isChatPending p' = false /\
     lastStage p').
Proof.
  unfold settled. intros [Hlast|[Hkind Hstage]].
  - left. destruct (Hlast env s) as (s' & calls & -> & Hend).
    exists s'; split; [reflexivity|exact Hend].
  - destruct (Hstage env s) as [(s' & calls & -> & Hend)|(p' & calls & -> & Hp')].
    + left. exists s'; split; [reflexivity|]. now rewrite Hkind.
    + right. split; [exact Hkind|]. exists p'; split; [reflexivity|exact Hp'].
Qed.

(** Every pending handler of a reachable page is one of [App]'s. *)
Lemma reachable_behaved (pg : Page) :
  reachable pg -> Forall behaved (inFlight pg).
Proof.
  induction 1 as [|env ev pg _ IH _|env s before p rest _ IH].
  - constructor.
  - destruct (fire_cases env ev pg)
      as [(s' & -> & _)|[(p & -> & _ & Hp)|(_ & p & -> & _ & Hp)]];
      cbn [inFlight]; [exact IH|constructor; assumption|].
    constructor; [left; exact Hp|exact IH].
  - cbn [inFlight] in IH. apply Forall_app in IH as [Hbefore Hrest].
    inversion Hrest as [|? ? Hp Hrest']; subst.
    assert (Hothers : Forall behaved (before ++ rest))
      by (apply Forall_app; split; assumption).
    destruct (settled_cases env p s (before ++ rest) Hp)
      as [(s' & -> & _)|(_ & p' & -> & _ & Hp')]; cbn [inFlight];
      [exact Hothers|]. constructor; [left; exact Hp'|exact Hothers].
Qed.

(** Induction over the reachable pages, with what is known of the pending
    handlers at hand. *)
Lemma reachable_invariant (Inv : Page -> Prop) :
  Inv initialPage ->
  (forall env ev pg,
      Inv pg -> offered ev (session pg) -> Inv (fire env ev pg)) ->
  (forall env s before p rest,
      Inv (mkPage s (before ++ p :: rest)) -> behaved p ->
      Inv (settled env p s (before ++ rest))) ->
  forall pg, reachable pg -> Inv pg.
Proof.
  intros Hinit Hfire Hsettle pg Hreach.
  induction Hreach as [|env ev pg _ IH Hoff|env s before p rest Hreach IH].
  - exact Hinit.
  - apply Hfire; assumption.
  - apply Hsettle; [exact IH|].
    apply reachable_behaved in Hreach. cbn [inFlight] in Hreach.
    apply Forall_app in Hreach as [_ Hrest]. now inversion Hrest.
Qed.

Lemma fst_run_log (env : Env) (h : Handler) :
  forall s log, fst (run env h s log) = fst (run env h s []).
Proof.
  induction h as [|upd k IH|file k IH|file k IH|p k IH|p k IH|k IH|k IH];
    intros s log; cbn [run]; try apply IH; try reflexivity.
  - now rewrite (IH _ s (log ++ _)), (IH _ s ([] ++ _)).
  - now rewrite (IH s (log ++ _)), (IH s ([] ++ _)).
Qed.

(** A handler run to completion is a run by stages with nothing in
    between: the page it ends in is reachable when the page at its first
    await is. *)
Lemma staged_run (env : Env) (h : Handler) :
  forall s log others,
    reachable (landed (advance env h s log) others) ->
    reachable (mkPage (fst (run env h s log)) others).
Proof.
  induction h as [|upd k IH|file k IH|file k IH|p k IH|p k IH|k IH|k IH];
    intros s log others Hreach; cbn [run advance landed] in *;
    try (apply IH; exact Hreach); try exact Hreach.
  - rewrite fst_run_log. apply IH.
    apply (reachable_settle env s [] (PendingFile file k) others Hreach).
  - rewrite fst_run_log. apply IH.
    apply (reachable_settle env s [] (PendingRequest p k) others Hreach).
Qed.

(** An event handled to completion before anything else happens. *)
Lemma reachable_step (env : Env) (ev : Event) (pg : Page) :
  reachable pg -> offered ev (session pg) ->
  reachable (mkPage (step env ev (session pg)) (inFlight pg)).
Proof.
  intros Hreach Hoff. unfold step. apply staged_run.
  apply (reachable_event env ev pg Hreach Hoff).
Qed.

Lemma endsOnUser_snoc (l : list ChatMessage) (m : ChatMessage) :
  endsOnUser (l ++ [m]) = match role m with user => true | model => false end.
Proof. unfold endsOnUser. rewrite map_app; cbn [map]. now rewrite last_last. Qed.

Lemma noAdjacentUsers_snoc_model (l : list ChatMessage) (a : jsstring) :
  noAdjacentUsers (l ++ [ message model a ]) = noAdjacentUsers l.
Proof.
  induction l as [|m rest IH]; [reflexivity|].
  destruct rest as [|m' r].
  - cbn. destruct (role m); reflexivity.
  - cbn [app noAdjacentUsers] in *.
    destruct (role m); [destruct (role m')|]; try reflexivity; exact IH.
Qed.

Lemma noAdjacentUsers_snoc_user (l : list ChatMessage) (u : jsstring) :
  endsOnUser l = false ->
  noAdjacentUsers l = true ->
  noAdjacentUsers (l ++ [ message user u ]) = true.
Proof.
  induction l as [|m rest IH]; [reflexivity|].
  destruct rest as [|m' r].
  - unfold endsOnUser; cbn. destruct (role m); [discriminate|reflexivity].
  - intros Hend Hadj.
    assert (Hend' : endsOnUser (m' :: r) = false) by exact Hend.
    cbn [app noAdjacentUsers] in *.
    destruct (role m); [destruct (role m'); [discriminate|]|];
      apply IH; assumption.
Qed.

(** The flags against the pending handlers, by count. *)
Lemma reachable_flag_count (pg : Page) :
  reachable pg ->
  (isAnalyzing (session pg) = true ->
     existsb isAnalysisPending (inFlight pg) = true) /\
  List.length (filter isChatPending (inFlight pg))
    = (if isChatting (session pg) then 1 else 0) /\
  (error (session pg) = None \/ error (session pg) = Some analysisErrorMessage).
Proof.
  revert pg. apply reachable_invariant.
  - split; [discriminate|split; [reflexivity|left; reflexivity]].
  - intros env ev pg (Han & Hchat & Herr) _.
    destruct (fire_cases env ev pg)
      as [(s' & -> & Hs')|[(p & -> & Hkind & _)|([_ Hidle] & p & -> & Hkind & _)]];
      cbn [session inFlight].
    + destruct Hs' as [->|[(v & _ & ->)|[(img & _ & ->)|(id0 & _ & ->)]]];
        try rewrite deleteRecord_fields; cbn; auto.
    + cbn [existsb filter]. unfold isAnalysisPending at 1. rewrite Hkind.
      cbn. auto.
    + cbn [existsb filter isAnalyzing isChatting error]. rewrite Hkind.
      rewrite Hidle in Hchat. cbn [List.length]. rewrite Hchat.
      split; [|split; [reflexivity|exact Herr]].
      intros H; rewrite (Han H); apply orb_true_r.
  - intros env s before p rest (Han & Hchat & Herr) Hp.
    cbn [session inFlight] in *.
    rewrite filter_app, length_app in Hchat. cbn [filter] in Hchat.
    rewrite existsb_app in Han. cbn [existsb] in Han.
    unfold isAnalysisPending at 2 in Han.
    destruct (settled_cases env p s (before ++ rest) Hp)
      as [(s' & -> & Hend)|(Hkind & p' & -> & Hkind' & _)];
      cbn [session inFlight].
    + destruct (isChatPending p) eqn:Hkind.
      * destruct Hend as (a & _ & ->). cbn [isAnalyzing isChatting error].
        cbn [List.length negb orb] in *.
        rewrite filter_app, length_app, existsb_app.
        destruct (isChatting s); [|lia].
        split; [exact Han|split; [lia|exact Herr]].
      * rewrite filter_app, length_app.
        destruct Hend as [(rec & _ & ->)| ->]; cbn [isAnalyzing isChatting error];
          (split; [discriminate|split; [exact Hchat|auto]]).
    + rewrite Hkind in *. cbn [existsb filter].
      unfold isAnalysisPending at 1. rewrite Hkind'.
      rewrite filter_app, length_app. cbn. auto.
Qed.

(** X6.  Chat turns exclude one another, by the [isChatting] guard of the
    handler: on every reachable page at most one chat request is pending,
    and while one is pending, pressing send does nothing and calls nothing,
    whatever has been typed into the chat box since. *)
Theorem chat_requests_exclusive (pg : Page) :
  reachable pg ->
  List.length (filter isChatPending (inFlight pg)) <= 1 /\
  ((exists p, In p (inFlight pg) /\ isChatPending p = true) ->
   forall env : Env,
     advance env (handleSendMessage (session pg)) (session pg) []
       = (session pg, [], None) /\
     fire env SendPressed pg = pg).
Proof.
  intros Hreach. destruct (reachable_flag_count pg Hreach) as (_ & Hchat & _).
  split; [rewrite Hchat; destruct (isChatting (session pg)); lia|].
  intros (p & Hin & Hkind) env.
  assert (Hbusy : isChatting (session pg) = true).
  { assert (Hf : In p (filter isChatPending (inFlight pg)))
      by (apply filter_In; split; assumption).
    destruct (isChatting (session pg)); [reflexivity|].
    destruct (filter isChatPending (inFlight pg)); [contradiction|discriminate]. }
  assert (Hstop : advance env (handleSendMessage (session pg)) (session pg) []
                  = (session pg, [], None)).
  { unfold handleSendMessage. rewrite Hbusy, orb_true_r. reflexivity. }
  split; [exact Hstop|].
  unfold fire; cbn [handlerOf]. rewrite Hstop. apply page_eta.
Qed.

(** X19.  On every page the interface can reach, events and settlements in
    any order, the selected record is one of the gallery: no handler leaves
    a selection that points at a deleted record. *)
Theorem reachable_selection_in_gallery (pg : Page) :
  reachable pg -> selectionInGallery (session pg).
Proof.
  revert pg. apply reachable_invariant.
  - exact I.
  - intros env ev pg IH Hoff. unfold selectionInGallery in *.
    destruct (fire_cases env ev pg)
      as [(s' & -> & Hs')|[(p & -> & _)|(_ & p & -> & _)]];
      cbn [session]; [|exact IH|exact IH].
    destruct Hs' as [->|[(v & -> & ->)|[(img & -> & ->)|(id0 & -> & ->)]]].
    + exact IH.
    + exact IH.
    + exact Hoff.
    + rewrite deleteRecord_fields; cbn [selectedImage images].
      destruct (selectedHasId (selectedImage (session pg)) id0) eqn:Hsel;
        [exact I|].
      destruct (selectedImage (session pg)) as [img|]; [|exact I].
      apply filter_In; split; [exact IH|]. cbn in Hsel. now rewrite Hsel.
  - intros env s before p rest IH Hp. unfold selectionInGallery in *.
    cbn [session] in IH.
    destruct (settled_cases env p s (before ++ rest) Hp)
      as [(s' & -> & Hend)|(_ & p' & -> & _)]; cbn [session]; [|exact IH].
    destruct (isChatPending p).
    + destruct Hend as (a & _ & ->). exact IH.
    + destruct Hend as [(rec & _ & ->)| ->]; [left; reflexivity|exact IH].
Qed.

(** X20.  On every reachable page the busy flags answer to what is pending:
    [isAnalyzing] is up only while an analysis is pending, [isChatting] is
    up exactly while a chat request is pending, so with nothing pending
    both flags are down; and the error banner is absent or holds the one
    fixed analysis message. *)
Theorem reachable_flags (pg : Page) :
  reachable pg ->
  (isAnalyzing (session pg) = true ->
     exists p, In p (inFlight pg) /\ isChatPending p = false) /\
  (isChatting (session pg) = true <->
     exists p, In p (inFlight pg) /\ isChatPending p = true) /\
  (inFlight pg = [] ->
     isAnalyzing (session pg) = false /\ isChatting (session pg) = false) /\
  (error (session pg) = None \/ error (session pg) = Some analysisErrorMessage).
Proof.
  intros Hreach.
  destruct (reachable_flag_count pg Hreach) as (Han & Hchat & Herr).
  assert (Hup : isChatting (session pg) = true <->
                exists p, In p (inFlight pg) /\ isChatPending p = true).
  { split.
    - intros Hbusy. rewrite Hbusy in Hchat.
      destruct (filter isChatPending (inFlight pg)) as [|p l] eqn:Hf;
        [discriminate|].
      assert (Hin : In p (filter isChatPending (inFlight pg)))
        by (rewrite Hf; left; reflexivity).
      apply filter_In in Hin. exists p; exact Hin.
    - intros (p & Hin & Hkind).
      assert (Hf : In p (filter isChatPending (inFlight pg)))
        by (apply filter_In; split; assumption).
      destruct (isChatting (session pg)); [reflexivity|].
      destruct (filter isChatPending (inFlight pg)); [contradiction|discriminate]. }
  split; [|split; [exact Hup|split; [|exact Herr]]].
  - intros Hbusy. apply Han, existsb_exists in Hbusy as (p & Hin & Hkind).
    exists p; split; [exact Hin|]. now apply negb_true_iff.
  - intros Hnone. rewrite Hnone in *. split.
    + destruct (isAnalyzing (session pg)); [|reflexivity].
      specialize (Han eq_refl); discriminate.
    + destruct (isChatting (session pg)); [discriminate|reflexivity].
Qed.

(** X21.  On every reachable page no message of the transcript is empty, no
    user turn directly follows another user turn, and the transcript ends
    on a user turn only while a chat request is pending ([isChatting] up). *)
Theorem reachable_transcript (pg : Page) :
  reachable pg ->
  Forall (fun m => text m <> []) (chatMessages (session pg)) /\
  noAdjacentUsers (chatMessages (session pg)) = true /\
  (endsOnUser (chatMessages (session pg)) = true ->
     isChatting (session pg) = true).
Proof.
  revert pg. apply reachable_invariant.
  - split; [constructor|split; [reflexivity|discriminate]].
  - intros env ev pg (Htexts & Hadj & Hend) _.
    destruct (fire_cases env ev pg)
      as [(s' & -> & Hs')|[(p & -> & _)|(Hacc & p & -> & _)]];
      cbn [session].
    + destruct Hs' as [->|[(v & _ & ->)|[(img & _ & ->)|(id0 & _ & ->)]]];
        try rewrite deleteRecord_fields; cbn [chatMessages isChatting]; auto.
      destruct (selectedHasId (selectedImage (session pg)) id0); auto.
      split; [constructor|split; [reflexivity|discriminate]].
    + cbn; auto.
    + cbn [chatMessages isChatting].
      destruct (accepted_text (session pg) Hacc) as [Htext Hidle].
      split; [|split; [|reflexivity]].
      * apply Forall_app; split; [exact Htexts|]. repeat constructor. exact Htext.
      * apply noAdjacentUsers_snoc_user; [|exact Hadj].
        destruct (endsOnUser (chatMessages (session pg))); [|reflexivity].
        rewrite Hend in Hidle by reflexivity; discriminate.
  - intros env s before p rest (Htexts & Hadj & Hend) Hp.
    cbn [session] in *.
    destruct (settled_cases env p s (before ++ rest) Hp)
      as [(s' & -> & Hfin)|(_ & p' & -> & _)]; cbn [session]; [|auto].
    destruct (isChatPending p).
    + destruct Hfin as (a & Ha & ->). cbn [chatMessages isChatting].
      split; [|split].
      * apply Forall_app; split; [exact Htexts|]. repeat constructor. exact Ha.
      * rewrite noAdjacentUsers_snoc_model. exact Hadj.
      * rewrite endsOnUser_snoc. discriminate.
    + destruct Hfin as [(rec & _ & ->)| ->]; cbn [chatMessages isChatting]; auto.
      split; [|split; [reflexivity|discriminate]].
      repeat constructor. discriminate.
Qed.

(** X22.  Every record of a reachable gallery has non-empty suggestions and
    a room type that is a single line without white space at either end
    (possibly the empty one). *)
Theorem reachable_gallery_wellFormed (pg : Page) :
  reachable pg -> Forall wellFormedRecord (images (session pg)).
Proof.
  revert pg. apply reachable_invariant.
  - constructor.
  - intros env ev pg IH _.
    destruct (fire_cases env ev pg)
      as [(s' & -> & Hs')|[(p & -> & _)|(_ & p & -> & _)]];
      cbn [session]; [|exact IH|exact IH].
    destruct Hs' as [->|[(v & _ & ->)|[(img & _ & ->)|(id0 & _ & ->)]]];
      try exact IH.
    rewrite deleteRecord_fields; cbn [images]. apply filter_Forall, IH.
  - intros env s before p rest IH Hp. cbn [session] in IH.
    destruct (settled_cases env p s (before ++ rest) Hp)
      as [(s' & -> & Hend)|(_ & p' & -> & _)]; cbn [session]; [|exact IH].
    destruct (isChatPending p).
    + destruct Hend as (a & _ & ->). exact IH.
    + destruct Hend as [(rec & Hrec & ->)| ->]; [|exact IH].
      constructor; assumption.
Qed.

(* ------------------------------------------------------------------ *)
(** ** These statements at the sample sessions *)

Module MoreInstances.

Import Sample Sample2.

Lemma blank_box_is_refused :
  run envKitchen (handleSendMessage kitchenBlank) kitchenBlank []
    = (kitchenBlank, []).
Proof.
  apply (sendMessage_refuses_blank_or_busy envKitchen kitchenBlank).
  left. repeat constructor.
Defined.

Lemma pots_question_text :
  exists t : jsstring,
    nth_error (chatMessages (sendMessage envKitchen kitchenAsking))
              (List.length (chatMessages kitchenAsking))
      = Some (message user t) /\
    t = trim (inputMessage kitchenAsking) /\
    t <> [] /\
    trimmed t.
Proof.
  apply (sendMessage_user_text_normalised envKitchen kitchenAsking).
  split; reflexivity.
Defined.

Lemma pots_question_flags :
  isChatting (suspended envKitchen (handleSendMessage kitchenAsking) kitchenAsking)
    = true /\
  isChatting (sendMessage envKitchen kitchenAsking) = false.
Proof.
  destruct (sendMessage_frame envKitchen kitchenAsking (conj eq_refl eq_refl))
    as (Hup & _ & Hdown & _).
  split; [exact Hup|exact Hdown].
Defined.

Lemma pots_question_calls :
  exists req : GenerateContentParameters,
    sendMessageCalls envKitchen kitchenAsking
      = [ CallChatsCreate (chatSession (selectedImage kitchenAsking));
          CallGenerateContent req ] /\
    requestTexts req
      = map text (chatMessages kitchenAsking) ++ [ trim (inputMessage kitchenAsking) ].
Proof.
  destruct (sendMessage_calls envKitchen kitchenAsking (conj eq_refl eq_refl))
    as (req & Hcalls & _ & _ & Htexts & _).
  exists req; split; [exact Hcalls|exact Htexts].
Defined.

(** The reply to the pots question arrives after the session was emptied. *)
Lemma pots_reply_after_reset :
  exists (pending : Pending) (calls : list SdkCall),
    advance envKitchen (handleSendMessage kitchenAsking) kitchenAsking []
      = (suspended envKitchen (handleSendMessage kitchenAsking) kitchenAsking,
         calls, Some pending) /\
    chatMessages (finish envKitchen pending initialState)
      = [ message model (assistantText (chatOutcome envKitchen kitchenAsking)) ].
Proof.
  destruct (sendMessage_reply_lands_on_current_state envKitchen kitchenAsking
              (conj eq_refl eq_refl))
    as (pending & calls & Hadv & _ & Hfin).
  exists pending, calls; split; [exact Hadv|].
  rewrite (Hfin initialState); reflexivity.
Defined.

Lemma png_payload_is_sent :
  map parts
      (contentsOf (analysisRequest png
                     (lit "data:image/png;base64" ++ 44%N :: lit "iVBORw0KGgo=")))
    = [ [ InlineData (lit "image/png") (Some (lit "iVBORw0KGgo="));
          Text analysisPrompt ] ].
Proof.
  apply (analysisRequest_inline_data png (lit "data:image/png;base64")
           (lit "iVBORw0KGgo=")).
  - vm_compute; intuition discriminate.
  - vm_compute; intuition discriminate.
Defined.

Lemma bedroom_first_line :
  roomTypeOf (lit "room type:" ++ lit " Bedroom " ++ (LF ++ lit "Suggestions:"))
    = trim (lit " Bedroom ").
Proof.
  apply (roomTypeOf_first_line (lit "room type:") (lit " Bedroom ")
           (LF ++ lit "Suggestions:")).
  - reflexivity.
  - repeat constructor.
  - apply Exists_cons_tl, Exists_cons_hd; reflexivity.
  - reflexivity.
Defined.


Lemma delete_unknown_id_in_twoRooms :
  deleteRecord envKitchen (lit "zzzzzz") twoRooms = twoRooms.
Proof.
  apply (deleteRecord_absent envKitchen (lit "zzzzzz") twoRooms).
  - intros img [<-|[<-|[]]]; discriminate.
  - left; reflexivity.
Defined.

Lemma bedroom_analysed_then_deleted :
  images (deleteRecord envDown (substring 7 (random36 envBedroom))
            (analyze envBedroom png initialState)) = images initialState /\
  selectedImage (deleteRecord envDown (substring 7 (random36 envBedroom))
                   (analyze envBedroom png initialState)) = None /\
  chatMessages (deleteRecord envDown (substring 7 (random36 envBedroom))
                  (analyze envBedroom png initialState)) = [].
Proof.
  apply (analyze_then_delete envBedroom envDown png initialState
           {| responseText := Some bedroomText |}).
  - reflexivity.
  - intros img [].
Defined.

(** A kitchen result that arrives late lands on a fresh session. *)
Lemma late_kitchen_result :
  exists (reading requesting : Pending),
    advance envKitchen (processImage png) kitchenSession []
      = (suspended envKitchen (processImage png) kitchenSession, [], Some reading) /\
    images (finish envKitchen requesting initialState) = [ kitchenRecord ].
Proof.
  destruct (analyze_result_lands_on_current_state envKitchen png kitchenSession
              dataUrl eq_refl)
    as (reading & requesting & Hadv & _ & Hfin).
  exists reading, requesting; split; [exact Hadv|].
  rewrite (Hfin initialState); reflexivity.
Defined.

Lemma kitchenAsking_reachable : reachable (mkPage kitchenAsking []).
Proof.
  apply (reachable_step envKitchen (Typed (lit "Where should I put my pots?"))
           (mkPage kitchenSession [])).
  - apply (reachable_step envKitchen (FileChosen [png]) initialPage).
    + apply reachable_init.
    + exact I.
  - split; [reflexivity|discriminate].
Qed.

(** The page with the pots question pending and new text in the chat box
    is reached by firing the send and the typing without settling. *)
Lemma kitchenWaiting_reachable : reachable kitchenWaiting.
Proof.
  apply reachable_event.
  - apply reachable_event; [exact kitchenAsking_reachable|].
    split; [reflexivity|discriminate].
  - split; [reflexivity|discriminate].
Qed.

Lemma settleNewest_reachable (env : Env) (pg : Page) :
  reachable pg -> reachable (settleNewest env pg).
Proof.
  destruct pg as [s [|p others]]; intros Hreach; [exact Hreach|].
  apply (reachable_settle env s [] p others Hreach).
Qed.

(** Handled one at a time, the events lead to the answered kitchen
    session with nothing pending. *)
Lemma kitchenAnswered_reachable : reachable (mkPage kitchenAnswered []).
Proof.
  apply (reachable_step envKitchen SendPressed (mkPage kitchenAsking [])).
  - exact kitchenAsking_reachable.
  - split; [reflexivity|discriminate].
Qed.

(** An upload that settles while a chat reply is pending: the reply lands
    after the new greeting, so two model turns stand in a row once nothing
    is pending. *)
Lemma uploadDuringChat_transcript :
  reachable uploadDuringChat /\
  inFlight uploadDuringChat = [] /\
  map role (chatMessages (session uploadDuringChat)) = [ model; model ] /\
  option_map roomType (selectedImage (session uploadDuringChat))
    = Some (lit "Bedroom").
Proof.
  split; [|repeat split].
  do 3 apply settleNewest_reachable.
  apply reachable_event; [|exact I].
  apply reachable_event; [exact kitchenAsking_reachable|].
  split; [reflexivity|discriminate].
Qed.

Lemma second_send_while_waiting :
  truthy (trim (inputMessage (session kitchenWaiting))) = true /\
  List.length (filter isChatPending (inFlight kitchenWaiting)) <= 1 /\
  fire envKitchen SendPressed kitchenWaiting = kitchenWaiting.
Proof.
  destruct (chat_requests_exclusive kitchenWaiting kitchenWaiting_reachable)
    as [Hone Hstop].
  split; [reflexivity|split; [exact Hone|]].
  apply Hstop. eexists; split; [left; reflexivity|reflexivity].
Defined.

Lemma bare_literal_gives_empty_room :
  roomTypeOf (lit "Detected " ++ lit "room type:" ++ lit "   ") = [] /\
  roomTypeOf (lit "Detected " ++ lit "room type:" ++ lit "   ")
    <> lit "Unknown Room".
Proof.
  apply (roomTypeOf_blank_is_empty (lit "Detected ") (lit "room type:") (lit "   ")).
  - reflexivity.
  - apply (leftmost_by_scan _ 9).
    intros k Hk. do 9 (destruct k as [|k]; [reflexivity|]). lia.
  - repeat constructor.
Defined.

Lemma kitchenWaiting_selection : selectionInGallery (session kitchenWaiting).
Proof.
  apply (reachable_selection_in_gallery kitchenWaiting).
  exact kitchenWaiting_reachable.
Defined.

Lemma kitchenWaiting_flags :
  (isAnalyzing (session kitchenWaiting) = true ->
     exists p, In p (inFlight kitchenWaiting) /\ isChatPending p = false) /\
  (isChatting (session kitchenWaiting) = true <->
     exists p, In p (inFlight kitchenWaiting) /\ isChatPending p = true) /\
  (inFlight kitchenWaiting = [] ->
     isAnalyzing (session kitchenWaiting) = false /\
     isChatting (session kitchenWaiting) = false) /\
  (error (session kitchenWaiting) = None \/
   error (session kitchenWaiting) = Some analysisErrorMessage).
Proof.
  apply (reachable_flags kitchenWaiting).
  exact kitchenWaiting_reachable.
Defined.

Lemma kitchenWaiting_transcript :
  Forall (fun m => text m <> []) (chatMessages (session kitchenWaiting)) /\
  noAdjacentUsers (chatMessages (session kitchenWaiting)) = true /\
  (endsOnUser (chatMessages (session kitchenWaiting)) = true ->
     isChatting (session kitchenWaiting) = true).
Proof.
  apply (reachable_transcript kitchenWaiting).
  exact kitchenWaiting_reachable.
Defined.

Lemma kitchenWaiting_gallery :
  Forall wellFormedRecord (images (session kitchenWaiting)).
Proof.
  apply (reachable_gallery_wellFormed kitchenWaiting).
  exact kitchenWaiting_reachable.
Defined.

(** C8, counterexample.  In the gallery of two records that share the empty
    id, the older record is not the selected one; deleting it by its id
    removes the selected record as well, clears the selection and empties
    the transcript. *)
Lemma delete_unselected_clears_selection :
  exists r1 r2 : AnalysisResult,
    images collided = [ r2; r1 ] /\
    selectedImage collided = Some r2 /\
    r1 <> r2 /\
    images (deleteRecord envHalf (id r1) collided) = [] /\
    selectedImage (deleteRecord envHalf (id r1) collided)
      <> selectedImage collided /\
    chatMessages (deleteRecord envHalf (id r1) collided)
      <> chatMessages collided.
Proof.
  eexists; eexists; split; [reflexivity|].
  split; [reflexivity|]. repeat split; discriminate || reflexivity.
Qed.

(** The three sample uploads: the failed one leaves no record. *)
Lemma threeUploads_gallery :
  images (analyzeAll threeUploads initialState) = [ kitchenRecord; bedroomRecord ] /\
  selectedImage (analyzeAll threeUploads initialState) = Some kitchenRecord.
Proof. split; reflexivity. Qed.

End MoreInstances.
